(** * Multi-hop graph reasoning core (week05/multiJump)

    A shallow embedding of [kg_manager.py], [graph_manager.py] and
    [multihop_coordinator.py], and the properties of the confidence scorer,
    the reasoning renderer, the four-stage coordinator pipeline and the
    statistics aggregator.

    Conventions of the embedding:
    - Python [int] is [Z]; Python [float] is an exact rational [Q]
      (rounding of binary64 is not modelled; numeric results are compared
      with [==]);
    - Python exceptions of class [Exception], those an [except Exception]
      clause catches, are carried by their message [str(e)]; interrupts and
      cancellation are outside the model;
    - the graph store, the completion service, the clock and the library
      functions [json.loads], [json.dumps], [str] and [float] are read from
      an environment [Env];
    - log lines, store queries and completion calls are recorded as a list
      of events, in program order. *)

From Stdlib Require Import ZArith QArith Qminmax Lqa Ascii String List Lia.
From Stdlib Require Floats.PrimFloat Numbers.Cyclic.Int63.Uint63.
From stdpp Require Import base option list strings gmap pretty.

Open Scope Z_scope.
Open Scope Q_scope.

(** ** Python values and exceptions *)

(** [str(e)] of a caught exception. *)
Definition Exn : Type := string.

(** Values found in a property bag of the graph store. Booleans, lists and
    nested maps are not modelled. *)
Inductive PyVal : Type :=
| VNone
| VNum (q : Q)
| VStr (s : string).

(** A property bag, [Dict[str, Any]]. *)
Abbreviation Props := (gmap string PyVal).

(** [d.get(key, default)]. *)
Definition py_get (d : Props) (key : string) (dflt : PyVal) : PyVal :=
  default dflt (d !! key).

(** Truth value of an object in [if v] and [v if c else w]. *)
Definition py_truthy (v : PyVal) : bool :=
  match v with
  | VNone => false
  | VNum q => negb (Qeq_bool q 0)
  | VStr s => negb (String.eqb s "")
  end.

(** [v == s] for a string literal [s]. *)
Definition py_eq_str (v : PyVal) (s : string) : bool :=
  match v with
  | VStr s' => String.eqb s' s
  | _ => false
  end.

(** [a == b], as used by [set] to tell members apart. *)
Definition py_eqb (a b : PyVal) : bool :=
  match a, b with
  | VNone, VNone => true
  | VNum p, VNum q => Qeq_bool p q
  | VStr s, VStr s' => String.eqb s s'
  | _, _ => false
  end.

Definition py_type_name (v : PyVal) : string :=
  match v with
  | VNone => "NoneType"
  | VNum _ => "float"
  | VStr _ => "str"
  end.

(** [x > y] on numbers. *)
Definition gt (x y : Q) : bool :=
  if Qlt_le_dec y x then true else false.

(** [v > n] for a number [n]: a [TypeError] unless [v] is a number. *)
Definition py_gt (v : PyVal) (n : Q) : Exn + bool :=
  match v with
  | VNum q => inr (gt q n)
  | _ => inl ("'>' not supported between instances of '" +:+ py_type_name v
              +:+ "' and 'int'")
  end.

(** ** Events and the effect monad *)

(** The parameterised traversal queries sent with [session.run]. *)
Inductive StoreQuery : Type :=
| QShareholders (company_name : string) (max_hops : Z)
| QControlling (company_name : string)
| QMultiHop (relationship_type : string) (max_hops : Z) (start_entity : string)
| QNeighbors (entity_name : string).

(** One line of [context_info] in the answer prompt. *)
Inductive ContextLine : Type :=
| StepLine (step_id : Z) (description : string)
| PathLine (number : nat) (reasoning : string) (confidence : Q).

(** The two prompt templates, by the values interpolated into them. *)
Inductive Prompt : Type :=
| IntentPrompt (query : string)
| AnswerPrompt (query entity query_type_value : string)
    (context_info : list ContextLine).

(** The [logger.error] call sites, by their message prefix. *)
Inductive ErrorSite : Type :=
| ProcessFailed        (* 查询处理失败 *)
| IntentFailed         (* 意图识别失败 *)
| GraphQueryFailed     (* 图谱查询失败 *)
| IntegrationFailed    (* 结果整合失败 *)
| FinalAnswerFailed    (* 生成最终答案失败 *)
| LLMCallFailed        (* LLM调用失败 *)
| ShareholdersFailed   (* 查询股东失败 *)
| ControllingFailed.   (* 查询控股股东失败 *)

Inductive Event : Type :=
| EInfoStart (query : string)
| EInfoDone (execution_time : Q)
| EError (site : ErrorSite) (e : Exn)
| ERun (q : StoreQuery)
| EChat (p : Prompt).

Inductive Res (A : Type) : Type :=
| Ret (a : A)
| Raise (e : Exn).
Arguments Ret {A} a.
Arguments Raise {A} e.

(** A computation: its outcome and the events it caused. Events before a
    [raise] are kept. *)
Definition M (A : Type) : Type := Res A * list Event.

Definition ret {A} (a : A) : M A := (Ret a, []).
Definition raise {A} (e : Exn) : M A := (Raise e, []).
Definition emit (ev : Event) : M unit := (Ret tt, [ev]).

Definition bind {A B} (m : M A) (k : A -> M B) : M B :=
  match m with
  | (Ret a, evs) => let '(r, evs') := k a in (r, evs ++ evs')
  | (Raise e, evs) => (Raise e, evs)
  end.

(** [try: body except Exception as e: handler e]. *)
Definition try_except {A} (body : M A) (handler : Exn -> M A) : M A :=
  match body with
  | (Ret a, evs) => (Ret a, evs)
  | (Raise e, evs) => let '(r, evs') := handler e in (r, evs ++ evs')
  end.

(** A pure operation that may raise. *)
Definition lift {A} (r : Exn + A) : M A :=
  match r with
  | inr a => ret a
  | inl e => raise e
  end.

Notation "x <~ c ;; k" := (bind c (fun x => k))
  (at level 100, c at next level, right associativity).
Notation "c ;;; k" := (bind c (fun _ => k))
  (at level 100, right associativity).

(** The outcome and the events of a computation. *)
Definition outcome {A} (m : M A) : Res A := fst m.
Definition events {A} (m : M A) : list Event := snd m.

(** A result set of the store: the records it yields when iterated, then
    possibly a failure. A failure of [driver.session()] or of [session.run]
    itself is a cursor that yields nothing and fails. *)
Record Cursor (R : Type) : Type := mkCursor {
  yielded : list R;
  failure : option Exn
}.
Arguments mkCursor {R} yielded failure.
Arguments yielded {R} c.
Arguments failure {R} c.

(** [for record in result: body], appending what [body] returns. *)
Fixpoint for_records {R A} (body : R -> M A) (rs : list R) : M (list A) :=
  match rs with
  | [] => ret []
  | r :: rs' =>
      a <~ body r ;;
      acc <~ for_records body rs' ;;
      ret (a :: acc)
  end.

(** ** kg_manager.py: the data model *)

Record Entity : Type := mkEntity {
  id : PyVal;
  name : PyVal;
  type : PyVal;
  properties : Props
}.

Record Relation : Type := mkRelation {
  source : PyVal;
  target : PyVal;
  relation_type : string;
  rel_properties : Props
}.

Record QueryPath : Type := mkQueryPath {
  entities : list Entity;
  relations : list Relation;
  confidence : Q;
  reasoning : string
}.

(** ** Records of the graph store *)

(** A row of [entities] in the shareholder query:
    [{id: node.id, name: node.name, type: labels(node)[0]}]. *)
Record NodeRow : Type := mkNodeRow {
  row_id : PyVal;
  row_name : PyVal;
  row_type : PyVal
}.

(** A relationship of a path: [{type: type(rel), properties: properties(rel)}]. *)
Record RelRow : Type := mkRelRow {
  row_rel_type : string;
  row_rel_properties : Props
}.

Record ShareholderRecord : Type := mkShareholderRecord {
  rec_entities : list NodeRow;
  rec_relations : list RelRow;
  rec_hops : Z
}.

(** A node of the driver: its labels and its properties. *)
Record GraphNode : Type := mkGraphNode {
  node_labels : list string;
  node_props : Props
}.

(** A record [s, r] of the controlling-shareholder query. *)
Record ControlRecord : Type := mkControlRecord {
  rec_s : GraphNode;
  rec_r : Props
}.

(** A record [path, hop_count] of the multi-hop query. *)
Record PathRecord : Type := mkPathRecord {
  path_nodes : list GraphNode;
  path_relationships : list RelRow;
  rec_hop_count : Z
}.

(** A record of the neighbour query. *)
Record NeighborRecord : Type := mkNeighborRecord {
  neighbor_name : PyVal;
  neighbor_labels : list string;
  neighbor_relationship_type : PyVal;
  neighbor_distance : Z
}.

(** ** JSON values, as [json.loads] builds them *)

#[local] Unset Elimination Schemes.
Inductive Json : Type :=
| JNull
| JBool (b : bool)
| JInt (z : Z)
| JFloat (q : Q)
| JStr (s : string)
| JArr (items : list Json)
| JObj (items : list (string * Json)).
#[local] Set Elimination Schemes.

Definition json_type_name (j : Json) : string :=
  match j with
  | JNull => "NoneType"
  | JBool _ => "bool"
  | JInt _ => "int"
  | JFloat _ => "float"
  | JStr _ => "str"
  | JArr _ => "list"
  | JObj _ => "dict"
  end.

(** Lookup in the items of a dict (keys are distinct). *)
Fixpoint assoc (key : string) (items : list (string * Json)) : option Json :=
  match items with
  | [] => None
  | (k, v) :: rest => if String.eqb k key then Some v else assoc key rest
  end.

(** [j.get(key, default)]: an [AttributeError] unless [j] is a dict. *)
Definition json_get (j : Json) (key : string) (dflt : Json) : Exn + Json :=
  match j with
  | JObj items => inr (default dflt (assoc key items))
  | _ => inl ("'" +:+ json_type_name j +:+ "' object has no attribute 'get'")
  end.

(** ** The environment *)

Record Env : Type := mkEnv {
  (** the graph store, one result set per query *)
  run_shareholders : string -> Z -> Cursor ShareholderRecord;
  run_controlling : string -> Cursor ControlRecord;
  run_multi_hop : string -> Z -> string -> Cursor PathRecord;
  run_neighbors : string -> Cursor NeighborRecord;
  (** [chat.completions.create(...).choices[0].message.content.strip()] *)
  chat_create : Prompt -> Exn + string;
  (** [(datetime.now() - start_time).total_seconds()] *)
  elapsed : Q;
  (** library functions *)
  json_loads : string -> Exn + Json;
  json_dumps : Json -> string;
  str_num : Q -> string;
  str_json : Json -> string;
  float_of_str : string -> Exn + Q
}.

Section WithEnv.

Variable E : Env.

(** [str(v)], as an f-string renders a value. *)
Definition py_str (v : PyVal) : string :=
  match v with
  | VNone => "None"
  | VNum q => str_num E q
  | VStr s => s
  end.

(** ** kg_manager.py: KnowledgeGraphManager *)

(** The loop of [_calculate_path_confidence] over the relations, with
    [relation_bonus] as accumulator. *)
Fixpoint relation_bonus_loop (relations : list Relation) (relation_bonus : Q)
  : Exn + Q :=
  match relations with
  | [] => inr relation_bonus
  | relation :: rest =>
      match py_gt (py_get (rel_properties relation) "percentage" (VNum 0)) 50 with
      | inl e => inl e
      | inr true => relation_bonus_loop rest (relation_bonus + 0.1)
      | inr false =>
          if py_eq_str (py_get (rel_properties relation) "control_type" VNone)
               "controlling"
          then relation_bonus_loop rest (relation_bonus + 0.15)
          else relation_bonus_loop rest relation_bonus
      end
  end.

Definition _calculate_path_confidence (hops : Z) (relations : list Relation)
  : Exn + Q :=
  let base_confidence := Qmax 0.1 (1.0 - inject_Z (hops - 1) * 0.2) in
  match relation_bonus_loop relations 0 with
  | inl e => inl e
  | inr relation_bonus => inr (Qmin 1.0 (base_confidence + relation_bonus))
  end.

(** [enumerate(entities[:-1])]: the entities but the last. *)
Definition but_last {A} (l : list A) : list A := removelast l.

(** The loop of [_generate_reasoning], [i] counting the entities visited. *)
Fixpoint reasoning_parts (all_entities : list Entity) (relations : list Relation)
    (i : nat) (visited : list Entity) : list string :=
  match visited with
  | [] => []
  | entity :: rest =>
      match relations !! i with
      | Some relation =>
          match all_entities !! (i + 1)%nat with
          | Some next_entity =>
              let percentage := py_get (rel_properties relation) "percentage" (VStr "") in
              let percentage_str :=
                if py_truthy percentage then "(" +:+ py_str percentage +:+ "%)" else "" in
              (py_str (name entity) +:+ " -> " +:+ relation_type relation +:+ " "
                 +:+ percentage_str +:+ " -> " +:+ py_str (name next_entity))
                :: reasoning_parts all_entities relations (S i) rest
          | None => reasoning_parts all_entities relations (S i) rest
          end
      | None => reasoning_parts all_entities relations (S i) rest
      end
  end.

(** [sep.join(parts)]. *)
Fixpoint join (sep : string) (parts : list string) : string :=
  match parts with
  | [] => ""
  | [p] => p
  | p :: rest => p +:+ sep +:+ join sep rest
  end.

Definition no_reasoning_path : string := "无法生成推理路径".

Definition _generate_reasoning (entities : list Entity) (relations : list Relation)
  : string :=
  match entities, relations with
  | [], _ => no_reasoning_path
  | _, [] => no_reasoning_path
  | _, _ => join " -> " (reasoning_parts entities relations 0 (but_last entities))
  end.

(** The body of the loop of [find_shareholders] for one record. *)
Definition shareholder_path (record : ShareholderRecord) : Exn + QueryPath :=
  let entities :=
    map (fun e => mkEntity (row_id e) (row_name e) (row_type e) ∅)
        (rec_entities record) in
  let relations :=
    map (fun r => mkRelation (VStr "") (VStr "") (row_rel_type r) (row_rel_properties r))
        (rec_relations record) in
  match _calculate_path_confidence (rec_hops record) relations with
  | inl e => inl e
  | inr confidence =>
      inr (mkQueryPath entities relations confidence
             (_generate_reasoning entities relations))
  end.

(** [for record in result: ... paths.append(...)] inside the [try]: the
    list [paths] keeps what was appended before an exception. *)
Fixpoint shareholders_loop (records : list ShareholderRecord)
    (paths : list QueryPath) : list QueryPath * option Exn :=
  match records with
  | [] => (paths, None)
  | record :: rest =>
      match shareholder_path record with
      | inl e => (paths, Some e)
      | inr p => shareholders_loop rest (paths ++ [p])
      end
  end.

Definition find_shareholders (company_name : string) (max_hops : Z)
  : M (list QueryPath) :=
  emit (ERun (QShareholders company_name max_hops)) ;;;
  let result := run_shareholders E company_name max_hops in
  match shareholders_loop (yielded result) [] with
  | (paths, Some e) => emit (EError ShareholdersFailed e) ;;; ret paths
  | (paths, None) =>
      match failure result with
      | Some e => emit (EError ShareholdersFailed e) ;;; ret paths
      | None => ret paths
      end
  end.

(** [result.single()]: the first record, [None] when there is none. *)
Definition single {R} (result : Cursor R) : Exn + option R :=
  match failure result with
  | Some e => inl e
  | None => inr (head (yielded result))
  end.

(** [node[key]]: a [KeyError] when the node has no such property. *)
Definition node_item (n : GraphNode) (key : string) : Exn + PyVal :=
  match node_props n !! key with
  | Some v => inr v
  | None => inl ("'" +:+ key +:+ "'")
  end.

(** [l[0]]. *)
Definition first_item {A} (l : list A) : Exn + A :=
  match l with
  | x :: _ => inr x
  | [] => inl "list index out of range"
  end.

Definition find_controlling_shareholder (company_name : string)
  : M (option QueryPath) :=
  try_except
    (emit (ERun (QControlling company_name)) ;;;
     record <~ lift (single (run_controlling E company_name)) ;;
     match record with
     | Some record =>
         let shareholder := rec_s record in
         let relation := rec_r record in
         sid <~ lift (node_item shareholder "id") ;;
         sname <~ lift (node_item shareholder "name") ;;
         label <~ lift (first_item (node_labels shareholder)) ;;
         let entities :=
           [mkEntity sid sname (VStr label) (node_props shareholder)] in
         sid' <~ lift (node_item shareholder "id") ;;
         let relations :=
           [mkRelation sid' (VStr company_name) "SHAREHOLDER" relation] in
         above <~ lift (py_gt (py_get relation "percentage" (VNum 0)) 50) ;;
         let confidence := if above : bool then 0.9 else 0.7 in
         sname' <~ lift (node_item shareholder "name") ;;
         let reasoning :=
           py_str sname' +:+ " 持有 " +:+ company_name +:+ " "
             +:+ py_str (py_get relation "percentage" (VStr "N/A")) +:+ "% 股份" in
         ret (Some (mkQueryPath entities relations confidence reasoning))
     | None => ret None
     end)
    (fun e => emit (EError ControllingFailed e) ;;; ret None).

(** ** graph_manager.py: Neo4jManager *)

(** A node of a multi-hop result:
    [{"id": node.get("id", ""), "name": node.get("name", ""), "labels": list(node.labels)}]. *)
Record PathNode : Type := mkPathNode {
  pn_id : PyVal;
  pn_name : PyVal;
  pn_labels : list string
}.

Record MultiHopResult : Type := mkMultiHopResult {
  nodes : list PathNode;
  relationships : list RelRow;
  hop_count : Z
}.

Definition multi_hop_result (record : PathRecord) : MultiHopResult :=
  mkMultiHopResult
    (map (fun node =>
            mkPathNode (py_get (node_props node) "id" (VStr ""))
                       (py_get (node_props node) "name" (VStr ""))
                       (node_labels node))
         (path_nodes record))
    (map (fun rel => mkRelRow (row_rel_type rel) (row_rel_properties rel))
         (path_relationships record))
    (rec_hop_count record).

(** No [try] here: a failure of the store leaves the method as an exception. *)
Definition find_multi_hop_relationships (start_entity relationship_type : string)
    (max_hops : Z) : M (list MultiHopResult) :=
  emit (ERun (QMultiHop relationship_type max_hops start_entity)) ;;;
  let result := run_multi_hop E relationship_type max_hops start_entity in
  let paths := map multi_hop_result (yielded result) in
  match failure result with
  | Some e => raise e
  | None => ret paths
  end.

Record Neighbors : Type := mkNeighbors {
  nb_entity : string;
  neighbors : list NeighborRecord
}.

(** No [try] here either. The query text fixes the depth to 2; [max_depth]
    is not read. *)
Definition get_entity_neighbors (entity_name : string) (max_depth : Z)
  : M Neighbors :=
  emit (ERun (QNeighbors entity_name)) ;;;
  let result := run_neighbors E entity_name in
  match failure result with
  | Some e => raise e
  | None => ret (mkNeighbors entity_name (yielded result))
  end.

(** ** multihop_coordinator.py: the data model *)

Inductive QueryType : Type :=
| SHAREHOLDER
| CONTROL_CHAIN
| RELATIONSHIP
| ENTITY_INFO.

Definition member_value (t : QueryType) : string :=
  match t with
  | SHAREHOLDER => "shareholder"
  | CONTROL_CHAIN => "control_chain"
  | RELATIONSHIP => "relationship"
  | ENTITY_INFO => "entity_info"
  end.

(** What the field [query_type] of a request holds. The dataclass does not
    check the annotation: next to the four members the field can hold an
    object that is none of them (a member added to the enumeration later),
    of which only its [.value] is modelled. *)
Inductive QueryTypeField : Type :=
| Member (t : QueryType)
| Foreign (value : string).

(** [query_type.value]. *)
Definition value (f : QueryTypeField) : string :=
  match f with
  | Member t => member_value t
  | Foreign v => v
  end.

Record QueryRequest : Type := mkQueryRequest {
  query : string;
  query_type : QueryTypeField;
  entity : string;
  max_hops : Z;
  similarity_threshold : Q;
  context : option Props
}.

(** The [metadata] of a result: the four keys of a completed pipeline, or
    the single key [error]. *)
Inductive Metadata : Type :=
| MetaPipeline (entity : string) (max_hops : Z) (steps_count : nat)
    (graph_results_count : nat)
| MetaError (error : string).

Record QueryResult : Type := mkQueryResult {
  res_query : string;
  res_query_type : QueryTypeField;
  paths : list QueryPath;
  answer : Json;
  res_confidence : Q;
  reasoning_steps : list string;
  execution_time : Q;
  metadata : Metadata
}.

(** [integrated_info] of the integration stage. The two sets are listed
    without repetition; the order [list(set)] gives them is not modelled. *)
Record IntegratedInfo : Type := mkIntegratedInfo {
  total_paths : nat;
  high_confidence_paths : list QueryPath;
  entities_involved : list PyVal;
  relationship_types : list string
}.

(** The [result] dict of a reasoning step, by the shapes the stages build. *)
Inductive StepResult : Type :=
| ResIntent (intent_result : Json)
| ResNothing                                   (* {} *)
| ResPaths (paths : list QueryPath)            (* {'paths': paths} *)
| ResNoInfo                                    (* {'integrated_info': '无相关信息'} *)
| ResIntegrated (info : IntegratedInfo) (paths : list QueryPath)
| ResNoIntegration.                            (* {'integrated_info': {}} *)

Record ReasoningStep : Type := mkReasoningStep {
  step_id : Z;
  description : string;
  data_source : string;
  result : StepResult;
  step_confidence : Q
}.

(** [result['paths']] when ['paths' in result]. The payload of the intent
    stage comes from the completion service and holds no [QueryPath]. *)
Definition result_paths (r : StepResult) : option (list QueryPath) :=
  match r with
  | ResPaths ps => Some ps
  | ResIntegrated _ ps => Some ps
  | _ => None
  end.

(** [result.get('paths', [])]. *)
Definition get_paths (r : StepResult) : list QueryPath :=
  default [] (result_paths r).

Record FinalAnswer : Type := mkFinalAnswer {
  fa_answer : Json;
  fa_confidence : Q;
  fa_explanation : Json
}.

(** ** Library operations used by the coordinator *)

(** [a / n]: a [ZeroDivisionError] when [n] is 0. *)
Definition py_div (a : Q) (n : Z) : Exn + Q :=
  if (n =? 0)%Z then inl "division by zero" else inr (a / inject_Z n).

(** [sum(xs)]. *)
Definition py_sum (xs : list Q) : Q := fold_left Qplus xs 0.

(** [float(j)]. *)
Definition py_float (j : Json) : Exn + Q :=
  match j with
  | JFloat q => inr q
  | JInt z => inr (inject_Z z)
  | JBool b => inr (if b then 1 else 0)
  | JStr s => float_of_str E s
  | _ => inl ("float() argument must be a string or a real number, not '"
              +:+ json_type_name j +:+ "'")
  end.

(** A JSON value inside an f-string. *)
Definition json_str (j : Json) : string :=
  match j with
  | JStr s => s
  | _ => str_json E j
  end.

(** The members of a [set] built by [add], without repetition. *)
Fixpoint set_add_all {A} (eqb : A -> A -> bool) (xs acc : list A) : list A :=
  match xs with
  | [] => acc
  | x :: rest =>
      if existsb (eqb x) acc then set_add_all eqb rest acc
      else set_add_all eqb rest (acc ++ [x])
  end.

(** ** multihop_coordinator.py: MultihopCoordinator *)

(** The payload [_call_llm] serialises when the completion call fails. *)
Definition llm_fallback (e : Exn) : Json :=
  JObj [("error", JStr ("LLM调用失败: " +:+ e));
        ("answer", JStr "系统暂时无法处理该查询");
        ("confidence", JFloat 0.0);
        ("explanation", JStr "LLM服务不可用")].

Definition _call_llm (prompt : Prompt) : M string :=
  try_except
    (emit (EChat prompt) ;;;
     lift (chat_create E prompt))
    (fun e =>
       emit (EError LLMCallFailed e) ;;;
       ret (json_dumps E (llm_fallback e))).

Definition _identify_query_intent (request : QueryRequest) : M ReasoningStep :=
  try_except
    (response <~ _call_llm (IntentPrompt (query request)) ;;
     intent_result <~ lift (json_loads E response) ;;
     kind <~ lift (json_get intent_result "query_type" (JStr "未知")) ;;
     ret (mkReasoningStep 1 ("意图识别: " +:+ json_str kind) "llm"
            (ResIntent intent_result) 0.8))
    (fun e =>
       emit (EError IntentFailed e) ;;;
       ret (mkReasoningStep 1 ("意图识别失败: " +:+ e) "llm" ResNothing 0.0)).

(** The conversion of one multi-hop result into a [QueryPath]. *)
Definition relationship_path (r : MultiHopResult) : M QueryPath :=
  entities <~ for_records
    (fun node =>
       label <~ lift (first_item (pn_labels node)) ;;
       ret (mkEntity (pn_id node) (pn_name node) (VStr label) ∅))
    (nodes r) ;;
  let relations :=
    map (fun rel => mkRelation (VStr "") (VStr "") (row_rel_type rel)
                      (row_rel_properties rel))
        (relationships r) in
  ret (mkQueryPath entities relations
         (Qmax 0.1 (1.0 - inject_Z (hop_count r) * 0.2))
         ("多跳路径，跳数: " +:+ pretty (hop_count r))).

(** The entity of a neighbour in the entity-information path. *)
Definition neighbor_entity (neighbor : NeighborRecord) : Entity :=
  mkEntity (neighbor_name neighbor) (neighbor_name neighbor)
    (VStr (match neighbor_labels neighbor with
           | label :: _ => label
           | [] => "Unknown"
           end))
    {[ "distance" := VNum (inject_Z (neighbor_distance neighbor)) ]}.

(** The [if]/[elif] chain of [_execute_graph_query]; [paths] starts empty
    and stays so when no branch is taken. *)
Definition graph_query_paths (request : QueryRequest) : M (list QueryPath) :=
  match query_type request with
  | Member SHAREHOLDER =>
      find_shareholders (entity request) (max_hops request)
  | Member CONTROL_CHAIN =>
      controlling_path <~ find_controlling_shareholder (entity request) ;;
      match controlling_path with
      | Some p => ret [p]
      | None => ret []
      end
  | Member RELATIONSHIP =>
      multi_hop_results <~
        find_multi_hop_relationships (entity request) "HOLDS" (max_hops request) ;;
      for_records relationship_path multi_hop_results
  | Member ENTITY_INFO =>
      nb <~ get_entity_neighbors (entity request) 2 ;;
      match neighbors nb with
      | [] => ret []
      | _ =>
          let entities :=
            mkEntity (VStr (entity request)) (VStr (entity request)) (VStr "Entity") ∅
              :: map neighbor_entity (take 5 (neighbors nb)) in
          ret [mkQueryPath entities [] 0.7
                 ("实体 " +:+ entity request +:+ " 的邻居信息")]
      end
  | Foreign _ => ret []
  end.

Definition _execute_graph_query (request : QueryRequest) : M ReasoningStep :=
  try_except
    (paths <~ graph_query_paths request ;;
     ret (mkReasoningStep 2
            ("图谱查询完成，找到 " +:+ pretty (length paths) +:+ " 条路径")
            "graph" (ResPaths paths)
            (match paths with [] => 0.1 | _ => 0.9 end)))
    (fun e =>
       emit (EError GraphQueryFailed e) ;;;
       ret (mkReasoningStep 2 ("图谱查询失败: " +:+ e) "graph" (ResPaths []) 0.0)).

(** [integrated_info] of a non-empty path list. *)
Definition integrate (paths : list QueryPath) : IntegratedInfo :=
  mkIntegratedInfo
    (length paths)
    (List.filter (fun p => gt (confidence p) 0.7) paths)
    (set_add_all py_eqb (flat_map (fun p => map name (entities p)) paths) [])
    (set_add_all String.eqb
       (flat_map (fun p => map relation_type (relations p)) paths) []).

Definition _integrate_and_reason (request : QueryRequest)
    (graph_results : StepResult) : M ReasoningStep :=
  try_except
    (let paths := get_paths graph_results in
     match paths with
     | [] =>
         ret (mkReasoningStep 3 "未找到相关路径，无法进行推理" "integration"
                ResNoInfo 0.0)
     | _ =>
         let integrated_info := integrate paths in
         avg_confidence <~
           lift (py_div (py_sum (map confidence paths)) (Z.of_nat (length paths))) ;;
         ret (mkReasoningStep 3
                ("结果整合完成，涉及 "
                   +:+ pretty (length (entities_involved integrated_info))
                   +:+ " 个实体")
                "integration" (ResIntegrated integrated_info paths)
                avg_confidence)
     end)
    (fun e =>
       emit (EError IntegrationFailed e) ;;;
       ret (mkReasoningStep 3 ("结果整合失败: " +:+ e) "integration"
              ResNoIntegration 0.0)).

(** The lines one step adds to [context_info]: its description, and for a
    graph step the first three paths. *)
Definition context_lines (step : ReasoningStep) : list ContextLine :=
  StepLine (step_id step) (description step)
    :: (if String.eqb (data_source step) "graph"
        then match result_paths (result step) with
             | Some paths =>
                 imap (fun i path =>
                         PathLine (i + 1) (reasoning path) (confidence path))
                      (take 3 paths)
             | None => []
             end
        else []).

(** The prompt of the answer stage. *)
Definition answer_prompt (request : QueryRequest)
    (reasoning_steps : list ReasoningStep) : Prompt :=
  let context_info := flat_map context_lines reasoning_steps in
  AnswerPrompt (query request) (entity request) (value (query_type request))
    context_info.

(** What the answer stage returns from its [except] branch. *)
Definition failed_answer (e : Exn) : FinalAnswer :=
  mkFinalAnswer (JStr ("答案生成失败: " +:+ e)) 0.0 (JStr "系统错误").

Definition _generate_final_answer (request : QueryRequest)
    (reasoning_steps : list ReasoningStep) : M FinalAnswer :=
  try_except
    (let prompt := answer_prompt request reasoning_steps in
     response <~ _call_llm prompt ;;
     result <~ lift (json_loads E response) ;;
     answer <~ lift (json_get result "answer" (JStr "无法生成答案")) ;;
     confidence <~ lift (json_get result "confidence" (JFloat 0.0)) ;;
     confidence <~ lift (py_float confidence) ;;
     explanation <~ lift (json_get result "explanation" (JStr "无推理说明")) ;;
     ret (mkFinalAnswer answer confidence explanation))
    (fun e =>
       emit (EError FinalAnswerFailed e) ;;;
       ret (failed_answer e)).

Definition process_query (request : QueryRequest) : M QueryResult :=
  try_except
    (emit (EInfoStart (query request)) ;;;
     step1 <~ _identify_query_intent request ;;
     let reasoning_steps := [step1] in
     step2 <~ _execute_graph_query request ;;
     let reasoning_steps := reasoning_steps ++ [step2] in
     step3 <~ _integrate_and_reason request (result step2) ;;
     let reasoning_steps := reasoning_steps ++ [step3] in
     final_answer <~ _generate_final_answer request reasoning_steps ;;
     let execution_time := elapsed E in
     let result :=
       mkQueryResult (query request) (query_type request)
         (get_paths (result step2))
         (fa_answer final_answer)
         (fa_confidence final_answer)
         (map description reasoning_steps)
         execution_time
         (MetaPipeline (entity request) (max_hops request)
            (length reasoning_steps)
            (length (get_paths (result step2)))) in
     emit (EInfoDone execution_time) ;;;
     ret result)
    (fun e =>
       emit (EError ProcessFailed e) ;;;
       ret (mkQueryResult (query request) (query_type request) []
              (JStr ("查询处理失败: " +:+ e)) 0.0 ["错误: " +:+ e]
              (elapsed E) (MetaError e))).

End WithEnv.

(** ** The statistics aggregator *)

(** An entry of [query_type_stats]. While the results are counted the key
    [success_rate] holds the number of successes. *)
Record TypeStat : Type := mkTypeStat {
  count : Z;
  success_rate : Q
}.

Record Statistics : Type := mkStatistics {
  total_queries : Z;
  successful_queries : Z;
  stat_success_rate : Q;
  average_confidence : Q;
  average_execution_time : Q;
  query_type_statistics : gmap string TypeStat
}.

(** What [get_query_statistics] returns: [{}] or the six keys. *)
Inductive StatsDict : Type :=
| StatsEmpty
| StatsFull (s : Statistics).

(** [r.confidence > 0.5]. *)
Definition successful (r : QueryResult) : bool :=
  gt (res_confidence r) 0.5.

(** The first loop: one pass over the results, updating the entry of the
    result's query type. *)
Fixpoint count_by_type (results : list QueryResult)
    (query_type_stats : gmap string TypeStat) : gmap string TypeStat :=
  match results with
  | [] => query_type_stats
  | r :: rest =>
      let query_type := value (res_query_type r) in
      let stats :=
        match query_type_stats !! query_type with
        | None => <[query_type := mkTypeStat 0 0]> query_type_stats
        | Some _ => query_type_stats
        end in
      let stats :=
        alter (fun s => mkTypeStat (count s + 1) (success_rate s)) query_type stats in
      let stats :=
        if successful r
        then alter (fun s => mkTypeStat (count s) (success_rate s + 1)) query_type stats
        else stats in
      count_by_type rest stats
  end.

(** The second loop: the number of successes becomes a rate. *)
Definition to_rate (s : TypeStat) : TypeStat :=
  mkTypeStat (count s)
    (if (0 <? count s)%Z then success_rate s / inject_Z (count s) else 0).

Definition get_query_statistics (results : list QueryResult) : Exn + StatsDict :=
  match results with
  | [] => inr StatsEmpty
  | _ =>
      let total_queries := Z.of_nat (length results) in
      let successful_queries := Z.of_nat (length (List.filter successful results)) in
      match py_div (py_sum (map res_confidence results)) total_queries with
      | inl e => inl e
      | inr avg_confidence =>
          match py_div (py_sum (map execution_time results)) total_queries with
          | inl e => inl e
          | inr avg_execution_time =>
              let query_type_stats := to_rate <$> count_by_type results ∅ in
              match py_div (inject_Z successful_queries) total_queries with
              | inl e => inl e
              | inr rate =>
                  inr (StatsFull
                         (mkStatistics total_queries successful_queries rate
                            avg_confidence avg_execution_time query_type_stats))
              end
          end
      end
  end.

(** ** Definitions used to state the properties *)

(** *** The scorer *)

(** The percentage of the relation is a number above 50. *)
Definition exceeds_50 (r : Relation) : bool :=
  match py_get (rel_properties r) "percentage" (VNum 0) with
  | VNum q => gt q 50
  | _ => false
  end.

(** The control type of the relation is "controlling". *)
Definition controlling (r : Relation) : bool :=
  py_eq_str (py_get (rel_properties r) "control_type" VNone) "controlling".

(** The percentage of the relation, 0 when it has none, is a number. *)
Definition numeric_percentage (r : Relation) : Prop :=
  exists q, py_get (rel_properties r) "percentage" (VNum 0) = VNum q.

(** The number of relations that satisfy [f]. *)
Definition count_of (f : Relation -> bool) (rs : list Relation) : Q :=
  inject_Z (Z.of_nat (length (List.filter f rs))).

(** The base confidence of the specification. *)
Definition base_confidence (h : Z) : Q := Qmax 0.1 (1.0 - inject_Z (h - 1) * 0.2).

(** The score when every relation above 50 earns 0.1 and every controlling
    relation earns 0.15, one bonus not excluding the other. *)
Definition claimed_score (h : Z) (rs : list Relation) : Q :=
  Qmin 1.0 (base_confidence h + 0.1 * count_of exceeds_50 rs
            + 0.15 * count_of controlling rs).

(** *** The reasoning string *)

(** The string holds a space. Every rendered triple does, the sentinel does
    not. *)
Fixpoint has_space (s : string) : bool :=
  match s with
  | EmptyString => false
  | String a s' => Ascii.eqb a " "%char || has_space s'
  end.

(** *** The pipeline *)


(** A result is well formed for a request: it echoes the query and its
    type, and its metadata agree with the lists they count; the result of
    the outer [except] branch has no path, confidence 0.0 and the failure
    message as answer. *)
Definition well_formed (request : QueryRequest) (r : QueryResult) : Prop :=
  res_query r = query request /\
  res_query_type r = query_type request /\
  match metadata r with
  | MetaPipeline ent hops steps_count graph_results_count =>
      ent = entity request /\ hops = max_hops request /\
      steps_count = length (reasoning_steps r) /\
      graph_results_count = length (paths r)
  | MetaError e =>
      paths r = [] /\ res_confidence r == 0 /\
      answer r = JStr ("查询处理失败: " +:+ e)
  end.

(** *** The statistics *)

(** The result is of the query type whose [.value] is [key]. *)
Definition of_type (key : string) (r : QueryResult) : bool :=
  String.eqb (value (res_query_type r)) key.

(** The number of results that satisfy [f]. *)
Definition count_where (f : QueryResult -> bool) (results : list QueryResult) : Z :=
  Z.of_nat (length (List.filter f results)).

(** The arithmetic mean. *)
Definition mean (xs : list Q) : Q :=
  fold_right Qplus 0 xs / inject_Z (Z.of_nat (length xs)).

(** The entry of a query type, zero when there is none yet. *)
Definition entry (stats : gmap string TypeStat) (key : string) : TypeStat :=
  default (mkTypeStat 0 0) (stats !! key).

(** ** Sample environments and requests *)

Definition no_records {R} : Cursor R := mkCursor [] None.

(** A store that cannot be reached. *)
Definition unavailable {R} : Cursor R := mkCursor [] (Some "ServiceUnavailable").

(** A one-hop path of the sample graph: a holder of 字节跳动. *)
Definition holder_record (holder_id holder : string) (percentage : Q)
  : ShareholderRecord :=
  mkShareholderRecord
    [mkNodeRow (VStr "comp_003") (VStr "字节跳动") (VStr "Company");
     mkNodeRow (VStr holder_id) (VStr holder) (VStr "Shareholder")]
    [mkRelRow "SHAREHOLDER" {[ "percentage" := VNum percentage ]}]
    1.

(** A holder with 60% that is also flagged as controlling. *)
Definition majority_props : Props :=
  <["control_type" := VStr "controlling"]> {[ "percentage" := VNum 60 ]}.

Definition majority_record : ControlRecord :=
  mkControlRecord
    (mkGraphNode ["Shareholder"]
       (<["name" := VStr "乙集团"]> {[ "id" := VStr "sh_100" ]}))
    majority_props.

Definition majority_relation : Relation :=
  mkRelation (VStr "sh_100") (VStr "甲公司") "SHAREHOLDER" majority_props.

Definition sample_answer : Json :=
  JObj [("answer", JStr "张一鸣"); ("confidence", JFloat 0.8);
        ("explanation", JStr "持股比例最高")].

Definition not_json (s : string) : Exn + Json :=
  inl "Expecting value: line 1 column 1 (char 0)".

(** The store holds the sample graph for the shareholder and the
    controlling-shareholder queries and cannot be reached for the other two;
    the completion service answers the intent prompt with plain text and the
    answer prompt with [sample_answer]. *)
Definition sample_env : Env :=
  mkEnv
    (fun company _ =>
       if String.eqb company "字节跳动"
       then mkCursor [holder_record "sh_003" "张一鸣" 20.2;
                      holder_record "sh_006" "红杉资本" 8.0] None
       else no_records)
    (fun company =>
       if String.eqb company "甲公司" then mkCursor [majority_record] None
       else no_records)
    (fun _ _ _ => unavailable)
    (fun _ => unavailable)
    (fun p => match p with
              | IntentPrompt _ => inr "这是一个股东查询"
              | AnswerPrompt _ _ _ _ => inr "{answer}"
              end)
    0.5
    (fun s => if String.eqb s "{answer}" then inr sample_answer else not_json s)
    (fun _ => "{fallback}")
    (fun q => if Qeq_bool q 20.2 then "20.2"
              else if Qeq_bool q 8.0 then "8.0"
              else pretty (Qnum q / Z.pos (Qden q))%Z)
    (fun _ => "{...}")
    (fun s => inl ("could not convert string to float: '" +:+ s +:+ "'")).

(** As [sample_env], with the completion service down: every call fails,
    and [json.loads] reads back the fallback of [_call_llm]. *)
Definition outage_env : Env :=
  mkEnv
    (run_shareholders sample_env)
    (run_controlling sample_env)
    (run_multi_hop sample_env)
    (run_neighbors sample_env)
    (fun _ => inl "Connection error.")
    0.5
    (fun s => if String.eqb s "{fallback}"
              then inr (llm_fallback "Connection error.") else not_json s)
    (fun _ => "{fallback}")
    (str_num sample_env)
    (str_json sample_env)
    (float_of_str sample_env).

Definition sample_request (t : QueryTypeField) (entity : string) (max_hops : Z)
  : QueryRequest :=
  mkQueryRequest "最大股东是谁？" t entity max_hops 0.7 None.

(** As [sample_env], with a completion service that answers every prompt
    with plain text. *)
Definition plain_text_env : Env :=
  mkEnv
    (run_shareholders sample_env)
    (run_controlling sample_env)
    (run_multi_hop sample_env)
    (run_neighbors sample_env)
    (fun _ => inr "张一鸣是最大股东")
    0.5
    not_json
    (json_dumps sample_env)
    (str_num sample_env)
    (str_json sample_env)
    (float_of_str sample_env).

(** As [sample_env], with the whole store out of reach. *)
Definition store_down_env : Env :=
  mkEnv
    (fun _ _ => unavailable)
    (fun _ => unavailable)
    (run_multi_hop sample_env)
    (run_neighbors sample_env)
    (chat_create sample_env)
    (elapsed sample_env)
    (json_loads sample_env)
    (json_dumps sample_env)
    (str_num sample_env)
    (str_json sample_env)
    (float_of_str sample_env).

(** A result of the given type, confidence and execution time. *)
Definition sample_result (t : QueryType) (confidence seconds : Q) : QueryResult :=
  mkQueryResult "最大股东是谁？" (Member t) [] (JStr "张一鸣") confidence []
    seconds (MetaPipeline "字节跳动" 3 3 0).

(** Three results: two shareholder queries, one of them successful, and a
    successful control-chain query. *)
Definition sample_results : list QueryResult :=
  [sample_result SHAREHOLDER 0.8 1.2;
   sample_result SHAREHOLDER 0.0 0.4;
   sample_result CONTROL_CHAIN 0.9 2.0].

(** ** The base confidence in binary64

    The scorer without relations, on the floats of the machine, to recompute
    the values the exact model gives at small hop counts. *)
Module Binary64.

Import PrimFloat.
#[local] Open Scope float_scope.

(** [float(n)] for an [int] of small magnitude. *)
Definition of_int (n : Z) : float :=
  match n with
  | Zneg p => opp (of_uint63 (Uint63.of_Z (Zpos p)))
  | _ => of_uint63 (Uint63.of_Z n)
  end.

(** [max(a, b)] and [min(a, b)] return [b] only when it is strictly
    beyond [a]. *)
Definition max (a b : float) : float := if ltb a b then b else a.
Definition min (a b : float) : float := if ltb b a then b else a.

Definition _calculate_path_confidence (hops : Z) : float :=
  let base_confidence :=
    max 0x1.999999999999ap-4 (sub 1 (mul (of_int (hops - 1)) 0x1.999999999999ap-3)) in
  let relation_bonus := of_int 0 in
  min 1 (add base_confidence relation_bonus).

(** The floats nearest to 1.0, 0.8 and 0.6, then 0.3999999999999999,
    0.19999999999999996 and the float nearest to 0.1. *)
Definition by_hops : list float :=
  [1; 0x1.999999999999ap-1; 0x1.3333333333333p-1; 0x1.9999999999998p-2;
   0x1.9999999999998p-3; 0x1.999999999999ap-4; 0x1.999999999999ap-4].

End Binary64.

(** ** Definitions used to state the further properties *)

(** The percentage of every relationship of the record, 0 when it has
    none, is a number. *)
Definition numeric_record (record : ShareholderRecord) : Prop :=
  Forall (fun r => exists q, py_get (row_rel_properties r) "percentage" (VNum 0) = VNum q)
         (rec_relations record).

(** A record whose single relationship carries its percentage as text. *)
Definition text_percentage_record : ShareholderRecord :=
  mkShareholderRecord
    [mkNodeRow (VStr "comp_003") (VStr "字节跳动") (VStr "Company");
     mkNodeRow (VStr "sh_009") (VStr "丙基金") (VStr "Shareholder")]
    [mkRelRow "SHAREHOLDER" {[ "percentage" := VStr "12%" ]}]
    1.

(** As [sample_env], with a store whose shareholder result set holds a
    record with a textual percentage between two records of the sample
    graph. *)
Definition text_percentage_env : Env :=
  mkEnv
    (fun _ _ =>
       mkCursor [holder_record "sh_003" "张一鸣" 20.2;
                 text_percentage_record;
                 holder_record "sh_006" "红杉资本" 8.0] None)
    (run_controlling sample_env)
    (run_multi_hop sample_env)
    (run_neighbors sample_env)
    (chat_create sample_env)
    (elapsed sample_env)
    (json_loads sample_env)
    (json_dumps sample_env)
    (str_num sample_env)
    (str_json sample_env)
    (float_of_str sample_env).

(** As [sample_env], with a store whose controlling shareholder of 甲公司
    is a node without the property [id]. *)
Definition anonymous_holder_env : Env :=
  mkEnv
    (run_shareholders sample_env)
    (fun _ =>
       mkCursor [mkControlRecord
                   (mkGraphNode ["Shareholder"] {[ "name" := VStr "乙集团" ]})
                   majority_props] None)
    (run_multi_hop sample_env)
    (run_neighbors sample_env)
    (chat_create sample_env)
    (elapsed sample_env)
    (json_loads sample_env)
    (json_dumps sample_env)
    (str_num sample_env)
    (str_json sample_env)
    (float_of_str sample_env).

(** Every node of the record has a label. *)
Definition labelled_record (record : PathRecord) : Prop :=
  Forall (fun node => node_labels node <> []) (path_nodes record).

(** The path the relationship branch builds from a record: one entity per
    node, with the node's [id] and [name] (the empty string when missing),
    its first label as type and no property; one relation per relationship,
    with its type and properties and empty ends; the inline confidence and
    the reasoning text. *)
Definition relationship_path_of (record : PathRecord) (p : QueryPath) : Prop :=
  Forall2 (fun node e =>
             id e = py_get (node_props node) "id" (VStr "") /\
             name e = py_get (node_props node) "name" (VStr "") /\
             (exists label, head (node_labels node) = Some label /\
                            type e = VStr label) /\
             properties e = ∅)
          (path_nodes record) (entities p) /\
  Forall2 (fun rel r =>
             source r = VStr "" /\ target r = VStr "" /\
             relation_type r = row_rel_type rel /\
             rel_properties r = row_rel_properties rel)
          (path_relationships record) (relations p) /\
  confidence p = Qmax 0.1 (1.0 - inject_Z (rec_hop_count record) * 0.2) /\
  reasoning p = "多跳路径，跳数: " +:+ pretty (rec_hop_count record).

(** A two-hop path of the sample graph, with labelled nodes when
    [labelled] and with a middle node without label otherwise. *)
Definition two_hop_record (labelled : bool) : PathRecord :=
  mkPathRecord
    [mkGraphNode ["Company"] {[ "name" := VStr "字节跳动" ]};
     mkGraphNode (if labelled then ["Shareholder"] else []) {[ "name" := VStr "红杉资本" ]};
     mkGraphNode ["Company"] {[ "name" := VStr "美团" ]}]
    [mkRelRow "HOLDS" {[ "percentage" := VNum 8.0 ]};
     mkRelRow "HOLDS" {[ "percentage" := VNum 3.5 ]}]
    2.

(** A neighbour at distance 1. *)
Definition near (name : string) : NeighborRecord :=
  mkNeighborRecord (VStr name) ["Shareholder"] (VStr "HOLDS") 1.

(** As [sample_env], with a store that answers the multi-hop query with
    the given records and the neighbour query with seven neighbours. *)
Definition reachable_env (records : list PathRecord) : Env :=
  mkEnv
    (run_shareholders sample_env)
    (run_controlling sample_env)
    (fun _ _ _ => mkCursor records None)
    (fun _ => mkCursor (map near ["甲"; "乙"; "丙"; "丁"; "戊"; "己"; "庚"]) None)
    (chat_create sample_env)
    (elapsed sample_env)
    (json_loads sample_env)
    (json_dumps sample_env)
    (str_num sample_env)
    (str_json sample_env)
    (float_of_str sample_env).

(** ** Further definitions used to state the properties *)

(** No member of [l] equals a member after it, for the equality [eqb]. *)
Fixpoint distinct_by {A} (eqb : A -> A -> bool) (l : list A) : Prop :=
  match l with
  | [] => True
  | x :: rest => existsb (eqb x) rest = false /\ distinct_by eqb rest
  end.

(** An event of [logger.error]. *)
Definition is_error (ev : Event) : bool :=
  match ev with
  | EError _ _ => true
  | _ => false
  end.

(** The store query of a request: the one of the branch of its type. *)
Definition store_queries (request : QueryRequest) : list StoreQuery :=
  match query_type request with
  | Member SHAREHOLDER => [QShareholders (entity request) (max_hops request)]
  | Member CONTROL_CHAIN => [QControlling (entity request)]
  | Member RELATIONSHIP => [QMultiHop "HOLDS" (max_hops request) (entity request)]
  | Member ENTITY_INFO => [QNeighbors (entity request)]
  | Foreign _ => []
  end.

(** ** multihop_coordinator.py: batch_process_queries

    The log of a batch: the events of the requests, and the errors the loop
    logs itself (批量处理查询失败). *)
Inductive BatchEvent : Type :=
| Within (ev : Event)
| BatchFailed (e : Exn).

(** The result appended in the [except] branch of the loop. *)
Definition batch_failed_result (request : QueryRequest) (e : Exn) : QueryResult :=
  mkQueryResult (query request) (query_type request) []
    (JStr ("处理失败: " +:+ e)) 0.0 [] 0.0 (MetaError e).

(** The loop over the requests. [asyncio.run] runs the coroutine to its
    end; the whole body is inside [try], so the loop itself cannot fail. *)
Fixpoint batch_loop (E : Env) (requests : list QueryRequest)
    (results : list QueryResult) : list QueryResult * list BatchEvent :=
  match requests with
  | [] => (results, [])
  | request :: rest =>
      let run := process_query E request in
      let '(result, log) :=
        match outcome run with
        | Ret result => (result, [])
        | Raise e => (batch_failed_result request e, [BatchFailed e])
        end in
      let '(results, later) := batch_loop E rest (results ++ [result]) in
      (results, map Within (events run) ++ log ++ later)
  end.

Definition batch_process_queries (E : Env) (requests : list QueryRequest)
  : list QueryResult * list BatchEvent :=
  batch_loop E requests [].

(** The events other than errors: the calls of the store and of the
    completion service, and the two information lines. *)
Definition without_errors (evs : list Event) : list Event :=
  List.filter (fun ev => negb (is_error ev)) evs.

(** The request is of the query type whose [.value] is [key]. *)
Definition request_of_type (key : string) (request : QueryRequest) : bool :=
  String.eqb (value (query_type request)) key.

(** Two relations the renderer cannot tell apart: the same type, and the
    same percentage or no percentage shown for either (a missing, zero or
    empty one). *)
Definition same_rendering (r r' : Relation) : Prop :=
  relation_type r = relation_type r' /\
  (py_get (rel_properties r) "percentage" (VStr "")
   = py_get (rel_properties r') "percentage" (VStr "") \/
   (py_truthy (py_get (rel_properties r) "percentage" (VStr "")) = false /\
    py_truthy (py_get (rel_properties r') "percentage" (VStr "")) = false)).

(** * Properties *)

(** ** The confidence scorer *)

Lemma base_le_1 (h : Z) : (1 <= h)%Z -> Qmax 0.1 (1.0 - inject_Z (h - 1) * 0.2) <= 1.0.
Proof.
  intros Hh. apply Q.max_lub; [lra|].
  assert (0 <= inject_Z (h - 1)) by (change 0 with (inject_Z 0); rewrite <- Zle_Qle; lia).
  lra.
Qed.

Lemma base_antitone (h h' : Z) : (h <= h')%Z ->
  Qmax 0.1 (1.0 - inject_Z (h' - 1) * 0.2) <= Qmax 0.1 (1.0 - inject_Z (h - 1) * 0.2).
Proof.
  intros Hh. apply Q.max_le_compat_l.
  assert (inject_Z (h - 1) <= inject_Z (h' - 1)) by (rewrite <- Zle_Qle; lia).
  lra.
Qed.

(** C2. Without relations the score of a path of [h >= 1] hops is
    [max(0.1, 1.0 - (h - 1) * 0.2)]: 1.0 at one hop, 0.6 at three hops, and
    no higher at [h' >= h] hops than at [h] hops. *)
Theorem path_confidence_without_bonus (h h' : Z)
    (H1 : (1 <= h)%Z) (H2 : (h <= h')%Z) :
  exists c c' c1 c3,
    _calculate_path_confidence h [] = inr c /\
    _calculate_path_confidence h' [] = inr c' /\
    _calculate_path_confidence 1 [] = inr c1 /\
    _calculate_path_confidence 3 [] = inr c3 /\
    c == Qmax 0.1 (1.0 - inject_Z (h - 1) * 0.2) /\
    c' <= c /\ c1 == 1.0 /\ c3 == 0.6.
Proof.
  do 4 eexists. repeat split; try reflexivity.
  - rewrite Qplus_0_r. apply Q.min_r. by apply base_le_1.
  - rewrite !Qplus_0_r. apply Q.min_le_compat_l. by apply base_antitone.
Qed.

Lemma path_confidence_without_bonus_witness :
  exists c c' c1 c3,
    _calculate_path_confidence 2 [] = inr c /\
    _calculate_path_confidence 7 [] = inr c' /\
    _calculate_path_confidence 1 [] = inr c1 /\
    _calculate_path_confidence 3 [] = inr c3 /\
    c == Qmax 0.1 (1.0 - inject_Z (2 - 1) * 0.2) /\
    c' <= c /\ c1 == 1.0 /\ c3 == 0.6.
Proof. apply (path_confidence_without_bonus 2 7); lia. Defined.

Lemma count_of_cons f r rs :
  count_of f (r :: rs) == (if f r then 1 else 0) + count_of f rs.
Proof.
  unfold count_of. simpl. destruct (f r); simpl length.
  - rewrite Nat2Z.inj_succ, <- Z.add_1_l, inject_Z_plus. reflexivity.
  - by rewrite Qplus_0_l.
Qed.

Lemma relation_bonus_loop_spec (rs : list Relation) (acc : Q) :
  Forall numeric_percentage rs ->
  exists b, relation_bonus_loop rs acc = inr b /\
    b == acc + 0.1 * count_of exceeds_50 rs
           + 0.15 * count_of (fun r => negb (exceeds_50 r) && controlling r) rs.
Proof.
  intros H. revert acc. induction H as [|r rs [q Hq] _ IH]; intros acc.
  - exists acc. split; [done|]. change (count_of exceeds_50 []) with 0.
    change (count_of (fun r => negb (exceeds_50 r) && controlling r) []) with 0. lra.
  - pose proof (count_of_cons exceeds_50 r rs) as H1.
    pose proof (count_of_cons (fun r => negb (exceeds_50 r) && controlling r) r rs) as H2.
    assert (exceeds_50 r = gt q 50) as Hx by (unfold exceeds_50; by rewrite Hq).
    cbv beta in H2. rewrite Hx in H1, H2. cbn [relation_bonus_loop]. rewrite Hq. cbn [py_gt].
    fold (controlling r). destruct (gt q 50); cbn [negb andb] in H2.
    + destruct (IH (acc + 0.1)) as (b & -> & Hb). exists b. split; [done|]. lra.
    + destruct (controlling r).
      * destruct (IH (acc + 0.15)) as (b & -> & Hb). exists b. split; [done|]. lra.
      * destruct (IH acc) as (b & -> & Hb). exists b. split; [done|]. lra.
Qed.

Lemma count_of_nonneg f rs : 0 <= count_of f rs.
Proof. unfold count_of. change 0 with (inject_Z 0). rewrite <- Zle_Qle. lia. Qed.

(** C3 (amended). For relations whose percentage, where present, is a
    number, the scorer adds to the base confidence 0.1 for each relation
    whose percentage exceeds 50 and 0.15 for each relation whose percentage
    does not exceed 50 and whose control type is "controlling", and the
    result lies between 0.1 and 1.0. *)
Theorem path_confidence_bonus_and_clamp (h : Z) (rs : list Relation)
    (H : Forall numeric_percentage rs) :
  exists c, _calculate_path_confidence h rs = inr c /\
    c == Qmin 1.0 (base_confidence h + 0.1 * count_of exceeds_50 rs
           + 0.15 * count_of (fun r => negb (exceeds_50 r) && controlling r) rs) /\
    0.1 <= c /\ c <= 1.0.
Proof.
  unfold _calculate_path_confidence.
  destruct (relation_bonus_loop_spec rs 0 H) as (b & -> & Hb).
  eexists. split; [done|]. 
  pose proof (count_of_nonneg exceeds_50 rs).
  pose proof (count_of_nonneg (fun r => negb (exceeds_50 r) && controlling r) rs).
  assert (0.1 <= base_confidence h) by apply Q.le_max_l.
  fold (base_confidence h).
  split; [|split].
  - apply Q.min_compat; [reflexivity | lra].
  - apply Q.min_glb; lra.
  - apply Q.le_min_l.
Qed.

Lemma path_confidence_bonus_and_clamp_witness :
  exists c, _calculate_path_confidence 3 [majority_relation] = inr c /\
    c == Qmin 1.0 (base_confidence 3 + 0.1 * count_of exceeds_50 [majority_relation]
           + 0.15 * count_of (fun r => negb (exceeds_50 r) && controlling r)
                      [majority_relation]) /\
    0.1 <= c /\ c <= 1.0.
Proof.
  apply (path_confidence_bonus_and_clamp 3 [majority_relation]).
  constructor; [|constructor]. exists 60. reflexivity.
Defined.

(** C3 (counterexample). A relation with a percentage of 60 that is also
    "controlling" earns 0.1, not 0.1 + 0.15: at three hops the score is 0.7
    where both bonuses together would give 0.85. *)
Lemma both_bonuses_not_added :
  exists c, _calculate_path_confidence 3 [majority_relation] = inr c /\
    c == 0.7 /\ claimed_score 3 [majority_relation] == 0.85 /\
    ~ c == claimed_score 3 [majority_relation].
Proof.
  eexists. split; [vm_compute; reflexivity|]. by vm_compute.
Qed.

(** A percentage that is not a number is a [TypeError] of the scorer. *)
Lemma path_confidence_type_error (h : Z) (r : Relation) (rs : list Relation) (s : string) :
  rel_properties r !! "percentage" = Some (VStr s) ->
  _calculate_path_confidence h (r :: rs)
  = inl "'>' not supported between instances of 'str' and 'int'".
Proof.
  intros Hp. unfold _calculate_path_confidence. cbn [relation_bonus_loop].
  unfold py_get. by rewrite Hp.
Qed.

(** ** The reasoning string *)

Lemma has_space_app (a b : string) : has_space (a +:+ b) = has_space a || has_space b.
Proof. induction a as [|c a IH]; simpl; [done|]. rewrite IH. by rewrite orb_assoc. Qed.

Lemma join_has_space sep p rest : has_space p = true -> has_space (join sep (p :: rest)) = true.
Proof.
  intros Hp. destruct rest; simpl; [done|]. by rewrite has_space_app, Hp.
Qed.

Lemma reasoning_parts_has_space E es rs i visited p ps :
  reasoning_parts E es rs i visited = p :: ps -> has_space p = true.
Proof.
  revert i. induction visited as [|e visited IH]; intros i; simpl; [done|].
  destruct (rs !! i); [|by apply IH].
  destruct (es !! (i + 1)%nat); [|by apply IH].
  intros [= <- _]. rewrite !has_space_app. simpl. by rewrite !orb_true_r.
Qed.

Lemma generate_reasoning_nonempty_inputs E es rs :
  es <> [] -> rs <> [] ->
  _generate_reasoning E es rs = join " -> " (reasoning_parts E es rs 0 (but_last es)).
Proof. destruct es, rs; done. Qed.

Lemma generate_reasoning_sentinel_iff E es rs :
  _generate_reasoning E es rs = no_reasoning_path <-> es = [] \/ rs = [].
Proof.
  split.
  - destruct es as [|e es]; [by left|]. destruct rs as [|r rs]; [by right|].
    rewrite generate_reasoning_nonempty_inputs by done.
    destruct (reasoning_parts _ _ _ _ _) as [|p ps] eqn:Hparts.
    + discriminate.
    + intros Heq. apply reasoning_parts_has_space in Hparts.
      apply (join_has_space " -> " p ps) in Hparts. rewrite Heq in Hparts. discriminate.
  - intros [-> | ->]; [done|]. by destruct es.
Qed.

(** C10. With exactly one entity and at least one relation
    [_generate_reasoning] returns the empty string: no triple is paired.
    The sentinel is returned exactly when one of the two lists is empty,
    and non-empty inputs that pair no triple give the empty string. *)
Theorem generate_reasoning_single_entity (E : Env) (es : list Entity)
    (rs : list Relation) (Hes : length es = 1%nat) (Hrs : rs <> []) :
  _generate_reasoning E es rs = "" /\
  reasoning_parts E es rs 0 (but_last es) = [] /\
  (forall es' rs', _generate_reasoning E es' rs' = no_reasoning_path <-> es' = [] \/ rs' = []) /\
  (forall es' rs', es' <> [] -> rs' <> [] ->
     reasoning_parts E es' rs' 0 (but_last es') = [] -> _generate_reasoning E es' rs' = "").
Proof.
  destruct es as [|e [|e' es]]; try discriminate. destruct rs as [|r rs]; [done|].
  repeat split; try done.
  - apply generate_reasoning_sentinel_iff.
  - apply generate_reasoning_sentinel_iff.
  - intros es' rs' H1 H2 H3. rewrite generate_reasoning_nonempty_inputs by done. by rewrite H3.
Qed.

Lemma generate_reasoning_single_entity_witness :
  _generate_reasoning sample_env
    [mkEntity (VStr "sh_100") (VStr "乙集团") (VStr "Shareholder") ∅]
    [majority_relation] = "".
Proof.
  refine (proj1 (generate_reasoning_single_entity sample_env _ _ _ _));
    [reflexivity|discriminate].
Defined.

(** With two entities and a relation the first triple is paired. *)
Lemma reasoning_parts_two E e1 e2 es r rs :
  reasoning_parts E (e1 :: e2 :: es) (r :: rs) 0 (but_last (e1 :: e2 :: es)) <> [].
Proof. simpl. done. Qed.

(** ** The effect monad *)

Lemma bind_ret_l {A B} (a : A) (evs : list Event) (k : A -> M B) :
  bind (Ret a, evs) k = (outcome (k a), evs ++ events (k a)).
Proof. unfold bind, outcome, events. by destruct (k a). Qed.

Lemma bind_of_outcome {A B} (m : M A) (k : A -> M B) (a : A) :
  outcome m = Ret a ->
  bind m k = (outcome (k a), events m ++ events (k a)).
Proof. destruct m as [r evs]. simpl. intros ->. apply bind_ret_l. Qed.

Lemma bind_outcome_inv {A B} (m : M A) (k : A -> M B) (b : B) :
  outcome (bind m k) = Ret b ->
  exists a, outcome m = Ret a /\ outcome (k a) = Ret b.
Proof.
  destruct m as [[a|e] evs]; simpl; [|done].
  destruct (k a) as [r evs'] eqn:Hk. simpl. intros ->. exists a. by rewrite Hk.
Qed.

Lemma try_except_post {A} (P : A -> Prop) (body : M A) (handler : Exn -> M A) :
  (forall a, outcome body = Ret a -> P a) ->
  (forall e, exists a, outcome (handler e) = Ret a /\ P a) ->
  exists a, outcome (try_except body handler) = Ret a /\ P a.
Proof.
  intros Hbody Hhandler. destruct body as [[a|e] evs]; simpl.
  - exists a. split; [done|]. by apply Hbody.
  - destruct (Hhandler e) as (a & Ha & HP). destruct (handler e) as [r evs'].
    simpl in *. subst r. by exists a.
Qed.

Lemma for_records_events {R A} (body : R -> M A) (rs : list R) :
  (forall r, events (body r) = []) -> events (for_records body rs) = [].
Proof.
  intros Hbody. induction rs as [|r rs IH]; [done|]. simpl.
  specialize (Hbody r). destruct (body r) as [[a|e] evs]; simpl in *; subst; [|done].
  destruct (for_records body rs) as [[acc|e] evs]; simpl in *; by subst.
Qed.

(** ** The stages of the pipeline *)

Lemma identify_query_intent_step E request :
  exists s, outcome (_identify_query_intent E request) = Ret s /\
    step_id s = 1%Z /\ data_source s = "llm".
Proof.
  unfold _identify_query_intent. apply try_except_post.
  - intros s Hs.
    apply bind_outcome_inv in Hs as (response & _ & Hs).
    apply bind_outcome_inv in Hs as (intent_result & _ & Hs).
    apply bind_outcome_inv in Hs as (kind & _ & Hs).
    by injection Hs as <-.
  - intros e. eexists. by split.
Qed.

Lemma execute_graph_query_step E request :
  exists s, outcome (_execute_graph_query E request) = Ret s /\
    exists ps, step_id s = 2%Z /\ data_source s = "graph" /\ result s = ResPaths ps.
Proof.
  unfold _execute_graph_query.
  apply (try_except_post (fun s => exists ps, step_id s = 2%Z /\ data_source s = "graph" /\ result s = ResPaths ps)).
  - intros s Hs. apply bind_outcome_inv in Hs as (ps & _ & Hs).
    injection Hs as <-. by exists ps.
  - intros e. eexists. split; [done|]. by eexists.
Qed.

Lemma integrate_and_reason_step request graph_results :
  exists s, outcome (_integrate_and_reason request graph_results) = Ret s /\
    step_id s = 3%Z /\ data_source s = "integration".
Proof.
  unfold _integrate_and_reason. apply try_except_post.
  - intros s Hs. destruct (get_paths graph_results).
    + by injection Hs as <-.
    + apply bind_outcome_inv in Hs as (avg & _ & Hs). by injection Hs as <-.
  - intros e. eexists. by split.
Qed.

Lemma try_except_total {A} (body : M A) (handler : Exn -> M A) :
  (forall e, exists a, outcome (handler e) = Ret a) ->
  exists a, outcome (try_except body handler) = Ret a.
Proof.
  intros H. destruct (try_except_post (fun _ => True) body handler) as (a & Ha & _);
    [done| |by exists a].
  intros e. destruct (H e) as [a Ha]. by exists a.
Qed.

Lemma generate_final_answer_total E request steps :
  exists fa, outcome (_generate_final_answer E request steps) = Ret fa.
Proof.
  unfold _generate_final_answer. apply try_except_total. intros e. by eexists.
Qed.

Ltac step_stage :=
  cbv beta iota zeta delta [try_except bind lift ret raise emit outcome events fst snd];
  cbn [app].

Ltac run_stage :=
  step_stage;
  repeat (match goal with
          | |- context [match ?x with inl _ => _ | inr _ => _ end] => destruct x eqn:?
          end; step_stage).


(** ** The pipeline as a whole *)

(** What [process_query] builds when the four stages return. *)
Lemma process_query_run E request s1 s2 s3 fa :
  outcome (_identify_query_intent E request) = Ret s1 ->
  outcome (_execute_graph_query E request) = Ret s2 ->
  outcome (_integrate_and_reason request (result s2)) = Ret s3 ->
  outcome (_generate_final_answer E request [s1; s2; s3]) = Ret fa ->
  process_query E request =
    (Ret (mkQueryResult (query request) (query_type request)
            (get_paths (result s2)) (fa_answer fa) (fa_confidence fa)
            [description s1; description s2; description s3]
            (elapsed E)
            (MetaPipeline (entity request) (max_hops request) 3
               (length (get_paths (result s2))))),
     EInfoStart (query request)
       :: events (_identify_query_intent E request)
       ++ events (_execute_graph_query E request)
       ++ events (_integrate_and_reason request (result s2))
       ++ events (_generate_final_answer E request [s1; s2; s3])
       ++ [EInfoDone (elapsed E)]).
Proof.
  intros H1 H2 H3 H4. unfold process_query, emit.
  rewrite bind_ret_l, (bind_of_outcome _ _ _ H1). cbn [outcome events fst snd].
  rewrite (bind_of_outcome _ _ _ H2). cbn [outcome events fst snd].
  rewrite (bind_of_outcome _ _ _ H3). cbn [outcome events fst snd].
  cbn [app]. rewrite (bind_of_outcome _ _ _ H4). cbn [outcome events fst snd].
  reflexivity.
Qed.

Lemma process_query_stages E request :
  exists s1 s2 s3 fa ps,
    outcome (_identify_query_intent E request) = Ret s1 /\
    outcome (_execute_graph_query E request) = Ret s2 /\
    outcome (_integrate_and_reason request (result s2)) = Ret s3 /\
    outcome (_generate_final_answer E request [s1; s2; s3]) = Ret fa /\
    step_id s1 = 1%Z /\ step_id s2 = 2%Z /\ step_id s3 = 3%Z /\
    result s2 = ResPaths ps.
Proof.
  destruct (identify_query_intent_step E request) as (s1 & H1 & I1 & _).
  destruct (execute_graph_query_step E request) as (s2 & H2 & ps & I2 & _ & R2).
  destruct (integrate_and_reason_step request (result s2)) as (s3 & H3 & I3 & _).
  destruct (generate_final_answer_total E request [s1; s2; s3]) as (fa & H4).
  by exists s1, s2, s3, fa, ps.
Qed.

(** ** The events of the stages

    Only the answer stage logs at the site [FinalAnswerFailed]. *)

Ltac no_such_event :=
  let e := fresh "e" in
  let Hin := fresh "Hin" in
  intros e Hin; cbn in Hin;
  repeat (destruct Hin as [Hin|Hin]; [discriminate|]); by destruct Hin.



Lemma find_shareholders_run E company hops :
  exists evs,
    find_shareholders E company hops
    = (Ret (fst (shareholders_loop E (yielded (run_shareholders E company hops)) [])),
       ERun (QShareholders company hops) :: evs) /\
    forall ev, In ev evs -> exists e, ev = EError ShareholdersFailed e.
Proof.
  unfold find_shareholders.
  destruct (shareholders_loop E _ []) as [ps [e|]];
    [|destruct (failure _) as [e|]]; step_stage;
    eexists; (split; [reflexivity|]); cbn; intros ev Hin;
    repeat (destruct Hin as [<-|Hin]; [by eexists|]); by destruct Hin.
Qed.


Lemma relationship_path_events (r : MultiHopResult) : events (relationship_path r) = [].
Proof.
  unfold relationship_path.
  assert (events (for_records
            (fun node =>
               label <~ lift (first_item (pn_labels node)) ;;
               ret (mkEntity (pn_id node) (pn_name node) (VStr label) ∅))
            (nodes r)) = []) as Hev.
  { apply for_records_events. intros node. by destruct (pn_labels node). }
  destruct (for_records _ (nodes r)) as [[es|e] evs]; simpl in *; by subst.
Qed.



(** What the graph stage makes of the outcome of its branch. *)
Lemma execute_graph_query_of_paths E request :
  (forall ps evs, graph_query_paths E request = (Ret ps, evs) ->
     _execute_graph_query E request
     = (Ret (mkReasoningStep 2
               ("图谱查询完成，找到 " +:+ pretty (length ps) +:+ " 条路径")
               "graph" (ResPaths ps) (match ps with [] => 0.1 | _ => 0.9 end)),
        evs)) /\
  (forall e evs, graph_query_paths E request = (Raise e, evs) ->
     _execute_graph_query E request
     = (Ret (mkReasoningStep 2 ("图谱查询失败: " +:+ e) "graph" (ResPaths []) 0.0),
        evs ++ [EError GraphQueryFailed e])).
Proof.
  unfold _execute_graph_query. split.
  - intros ps evs ->. step_stage. by rewrite app_nil_r.
  - by intros e evs ->.
Qed.

(** ** The failures of the stages

    Each stage logs its failure at its own site and returns its failure
    step; the integration stage logs nothing. *)

Lemma integrate_and_reason_silent request graph_results :
  events (_integrate_and_reason request graph_results) = [].
Proof.
  unfold _integrate_and_reason.
  destruct (get_paths graph_results) as [|p ps]; [done|].
  unfold py_div.
  destruct (Z.eqb_spec (Z.of_nat (length (p :: ps))) 0) as [H0|_];
    [simpl in H0; lia|done].
Qed.










(** Scenario C of the specification: the completion service is down. The
    fallback text of [_call_llm] is read back, the result has confidence 0.0
    and the fallback answer, and the graph and integration steps are those
    of a run without outage. *)
Example completion_outage_result :
  exists r,
    outcome (process_query outage_env
               (sample_request (Member CONTROL_CHAIN) "甲公司" 3)) = Ret r /\
    answer r = JStr "系统暂时无法处理该查询" /\ res_confidence r == 0 /\
    length (paths r) = 1%nat /\
    reasoning_steps r
    = ["意图识别: 未知"; "图谱查询完成，找到 1 条路径"; "结果整合完成，涉及 1 个实体"].
Proof. eexists. split; [vm_compute; reflexivity|]. by vm_compute. Qed.

(** Plain text where JSON is expected fails the answer stage: the error is
    logged and the answer carries the failure message. *)
Example unparsable_answer_result :
  exists r,
    outcome (process_query plain_text_env
               (sample_request (Member SHAREHOLDER) "字节跳动" 3)) = Ret r /\
    In (EError FinalAnswerFailed "Expecting value: line 1 column 1 (char 0)")
       (events (process_query plain_text_env
                  (sample_request (Member SHAREHOLDER) "字节跳动" 3))) /\
    answer r = JStr "答案生成失败: Expecting value: line 1 column 1 (char 0)" /\
    res_confidence r == 0 /\ length (paths r) = 2%nat.
Proof.
  eexists. split; [vm_compute; reflexivity|]. split; [vm_compute; tauto|].
  by vm_compute.
Qed.

(** C5 (amended). Every call of [process_query] runs the four stages in
    order, none skipped; the first three stages each produce one
    [ReasoningStep], with step ids 1, 2 and 3, and the answer stage produces
    the answer and the confidence of the result instead of a step: the
    result lists three step descriptions and counts three steps. *)
Theorem process_query_three_steps (E : Env) (request : QueryRequest) :
  exists r s1 s2 s3 fa,
    outcome (process_query E request) = Ret r /\
    outcome (_identify_query_intent E request) = Ret s1 /\
    outcome (_execute_graph_query E request) = Ret s2 /\
    outcome (_integrate_and_reason request (result s2)) = Ret s3 /\
    outcome (_generate_final_answer E request [s1; s2; s3]) = Ret fa /\
    map step_id [s1; s2; s3] = [1; 2; 3]%Z /\
    reasoning_steps r = map description [s1; s2; s3] /\
    metadata r
    = MetaPipeline (entity request) (max_hops request) 3 (length (paths r)) /\
    answer r = fa_answer fa /\ res_confidence r = fa_confidence fa /\
    events (process_query E request)
    = EInfoStart (query request)
        :: events (_identify_query_intent E request)
        ++ events (_execute_graph_query E request)
        ++ events (_integrate_and_reason request (result s2))
        ++ events (_generate_final_answer E request [s1; s2; s3])
        ++ [EInfoDone (elapsed E)].
Proof.
  destruct (process_query_stages E request)
    as (s1 & s2 & s3 & fa & ps & H1 & H2 & H3 & H4 & I1 & I2 & I3 & _).
  rewrite (process_query_run E request s1 s2 s3 fa H1 H2 H3 H4).
  eexists _, s1, s2, s3, fa. split; [reflexivity|].
  cbn [map]. rewrite I1, I2, I3. by repeat split.
Qed.

(** C5 (counterexample). A completed pipeline holds three steps, not four. *)
Lemma completed_pipeline_has_three_steps :
  exists r,
    outcome (process_query sample_env
               (sample_request (Member SHAREHOLDER) "字节跳动" 3)) = Ret r /\
    metadata r = MetaPipeline "字节跳动" 3 3 2 /\
    length (reasoning_steps r) = 3%nat /\
    length (reasoning_steps r) <> 4%nat.
Proof.
  eexists. split; [vm_compute; reflexivity|]. by repeat split.
Qed.

(** C7 (amended). A query type that is none of the four members takes no
    branch of the dispatch: the graph stage returns its step 2 with no path
    and confidence 0.1, raises nothing and logs nothing, and the pipeline
    goes on to a result without paths. *)
Theorem unknown_query_type_falls_through (E : Env) (request : QueryRequest)
    (v : string) (Hforeign : query_type request = Foreign v) :
  _execute_graph_query E request
  = (Ret (mkReasoningStep 2 "图谱查询完成，找到 0 条路径" "graph" (ResPaths []) 0.1),
     []) /\
  exists r, outcome (process_query E request) = Ret r /\ paths r = [] /\
    metadata r = MetaPipeline (entity request) (max_hops request) 3 0.
Proof.
  assert (_execute_graph_query E request
          = (Ret (mkReasoningStep 2 "图谱查询完成，找到 0 条路径" "graph"
                    (ResPaths []) 0.1), [])) as Hstep.
  { unfold _execute_graph_query, graph_query_paths. by rewrite Hforeign. }
  split; [done|].
  destruct (process_query_stages E request)
    as (s1 & s2 & s3 & fa & ps & H1 & H2 & H3 & H4 & _).
  rewrite (process_query_run E request s1 s2 s3 fa H1 H2 H3 H4).
  rewrite Hstep in H2. injection H2 as <-. by eexists.
Qed.

Lemma unknown_query_type_falls_through_witness :
  _execute_graph_query sample_env (sample_request (Foreign "merger") "甲公司" 3)
  = (Ret (mkReasoningStep 2 "图谱查询完成，找到 0 条路径" "graph" (ResPaths []) 0.1),
     []) /\
  exists r,
    outcome (process_query sample_env (sample_request (Foreign "merger") "甲公司" 3))
    = Ret r /\ paths r = [] /\ metadata r = MetaPipeline "甲公司" 3 3 0.
Proof.
  apply (unknown_query_type_falls_through sample_env
           (sample_request (Foreign "merger") "甲公司" 3) "merger").
  reflexivity.
Defined.

(** C7 (counterexample). The dispatch of a query type outside the four
    members does not fail: it returns a step with an empty path list. *)
Lemma unknown_query_type_not_rejected :
  exists s,
    _execute_graph_query sample_env (sample_request (Foreign "merger") "甲公司" 3)
    = (Ret s, []) /\
    result s = ResPaths [] /\
    forall e, outcome (_execute_graph_query sample_env
                         (sample_request (Foreign "merger") "甲公司" 3))
              <> Raise e.
Proof.
  eexists. split; [vm_compute; reflexivity|]. split; [done|]. by vm_compute.
Qed.

(** ** The relationship branch *)

Lemma for_records_returns {R A} (body : R -> M A) (rs : list R) :
  Forall (fun r => exists a, body r = (Ret a, [])) rs ->
  exists xs, for_records body rs = (Ret xs, []) /\
    Forall2 (fun r a => body r = (Ret a, [])) rs xs.
Proof.
  induction 1 as [|r rs [a Ha] _ (xs & Hxs & Hall)].
  - by exists [].
  - exists (a :: xs). cbn [for_records]. rewrite Ha, Hxs. split; [done|].
    by constructor.
Qed.

Lemma for_records_raises {R A} (body : R -> M A) (rs : list R) (e : Exn) :
  Forall (fun r => body r = (Raise e, []) \/ exists a, body r = (Ret a, [])) rs ->
  Exists (fun r => body r = (Raise e, [])) rs ->
  for_records body rs = (Raise e, []).
Proof.
  induction 1 as [|r rs Hr _ IH]; intros Hex; [by apply Exists_nil in Hex|].
  cbn [for_records]. destruct Hr as [Hr|[a Ha]].
  - by rewrite Hr.
  - rewrite Ha. apply Exists_cons in Hex as [Hex|Hex]; [congruence|].
    by rewrite (IH Hex).
Qed.

Lemma relationship_entity_cases (node : PathNode) :
  (pn_labels node = [] /\
   (label <~ lift (first_item (pn_labels node)) ;;
    ret (mkEntity (pn_id node) (pn_name node) (VStr label) ∅))
   = (Raise "list index out of range", [])) \/
  (exists label,
     head (pn_labels node) = Some label /\
     (label <~ lift (first_item (pn_labels node)) ;;
      ret (mkEntity (pn_id node) (pn_name node) (VStr label) ∅))
     = (Ret (mkEntity (pn_id node) (pn_name node) (VStr label) ∅), [])).
Proof. destruct (pn_labels node) as [|label labels]; [by left|right]. by exists label. Qed.

Lemma relationship_path_cases (record : PathRecord) :
  (~ labelled_record record /\
   relationship_path (multi_hop_result record)
   = (Raise "list index out of range", [])) \/
  (labelled_record record /\
   exists p, relationship_path (multi_hop_result record) = (Ret p, []) /\
             relationship_path_of record p).
Proof.
  unfold relationship_path, labelled_record.
  set (body := fun node : PathNode =>
         label <~ lift (first_item (pn_labels node)) ;;
         ret (mkEntity (pn_id node) (pn_name node) (VStr label) ∅)).
  destruct (decide (Forall (fun node => node_labels node <> []) (path_nodes record)))
    as [Hall|Hnot].
  - right. split; [done|].
    destruct (for_records_returns body (nodes (multi_hop_result record)))
      as (es & Hes & Hes2).
    { cbn [nodes multi_hop_result]. apply Forall_map.
      eapply Forall_impl; [exact Hall|]. intros node Hnode. cbn beta.
      destruct (relationship_entity_cases
                  (mkPathNode (py_get (node_props node) "id" (VStr ""))
                     (py_get (node_props node) "name" (VStr "")) (node_labels node)))
        as [[H _]|(label & _ & H)]; [done|by eexists]. }
    rewrite Hes. eexists. split; [reflexivity|].
    unfold relationship_path_of. cbn [entities relations confidence reasoning].
    cbn [nodes multi_hop_result relationships hop_count] in *.
    split; [|split; [|done]].
    + apply Forall2_fmap_l in Hes2. eapply Forall2_impl; [exact Hes2|].
      intros node e He. subst body. unfold compose in He. cbn beta in He.
      cbn [pn_labels pn_id pn_name] in He.
      destruct (node_labels node) as [|label labels]; [discriminate He|].
      injection He as <-. repeat split; try done. by exists label.
    + rewrite map_map. apply Forall2_fmap_r, Forall_Forall2_diag, Forall_forall.
      by intros rel _.
  - left. split; [done|].
    rewrite (for_records_raises body _ "list index out of range"); [done| |].
    + apply Forall_forall. intros node _.
      destruct (relationship_entity_cases node) as [[_ H]|(label & _ & H)];
        [by left|right; by eexists].
    + cbn [nodes multi_hop_result]. apply Exists_map.
      apply not_Forall_Exists in Hnot; [|intros node; apply _].
      eapply Exists_impl; [exact Hnot|]. intros node Hnode. cbn beta.
      destruct (node_labels node) eqn:Hl; [by subst body|].
      destruct Hnode. by rewrite Hl.
Qed.

(** The relationship branch when the store does not fail: one path per
    record when every node has a label, and the [IndexError] of the first
    node without label otherwise. *)
Lemma relationship_query_paths E request :
  query_type request = Member RELATIONSHIP ->
  failure (run_multi_hop E "HOLDS" (max_hops request) (entity request)) = None ->
  (Forall labelled_record
     (yielded (run_multi_hop E "HOLDS" (max_hops request) (entity request))) ->
   exists ps,
     graph_query_paths E request
     = (Ret ps, [ERun (QMultiHop "HOLDS" (max_hops request) (entity request))]) /\
     Forall2 relationship_path_of
       (yielded (run_multi_hop E "HOLDS" (max_hops request) (entity request))) ps) /\
  (~ Forall labelled_record
       (yielded (run_multi_hop E "HOLDS" (max_hops request) (entity request))) ->
   graph_query_paths E request
   = (Raise "list index out of range",
      [ERun (QMultiHop "HOLDS" (max_hops request) (entity request))])).
Proof.
  intros Ht Hok. unfold graph_query_paths.
  rewrite Ht. unfold find_multi_hop_relationships. rewrite Hok.
  set (records := yielded _). split.
  - intros Hall.
    destruct (for_records_returns relationship_path (map multi_hop_result records))
      as (ps & Hps & Hps2).
    { apply Forall_map. eapply Forall_impl; [exact Hall|]. intros record Hrec.
      destruct (relationship_path_cases record) as [[H _]|[_ (p & Hp & _)]];
        [done|by exists p]. }
    step_stage. rewrite Hps. exists ps. split; [done|].
    apply Forall2_fmap_l in Hps2. eapply Forall2_impl; [exact Hps2|].
    intros record p Hp. cbn beta in Hp.
    destruct (relationship_path_cases record) as [[_ H]|[_ (p' & Hp' & Hof)]];
      congruence.
  - intros Hnot. step_stage.
    rewrite (for_records_raises relationship_path _ "list index out of range");
      [done| |].
    + apply Forall_map, Forall_forall. intros record _. cbn beta.
      destruct (relationship_path_cases record) as [[_ H]|[_ (p & Hp & _)]];
        [by left|right; by exists p].
    + apply Exists_map. apply not_Forall_Exists in Hnot; [|intros record; apply _].
      eapply Exists_impl; [exact Hnot|]. intros record Hrec. cbn beta.
      by destruct (relationship_path_cases record) as [[_ H]|[H _]].
Qed.

(** ** Requests with [max_hops] below 1 *)

Lemma execute_graph_query_shareholder E request :
  query_type request = Member SHAREHOLDER ->
  exists s evs,
    _execute_graph_query E request
    = (Ret s, ERun (QShareholders (entity request) (max_hops request)) :: evs) /\
    result s
    = ResPaths (fst (shareholders_loop E
                       (yielded (run_shareholders E (entity request) (max_hops request)))
                       [])).
Proof.
  intros Ht. unfold _execute_graph_query, graph_query_paths. rewrite Ht.
  destruct (find_shareholders_run E (entity request) (max_hops request))
    as (evs & -> & _).
  step_stage. by eexists _, _.
Qed.

Lemma execute_graph_query_relationship E request :
  query_type request = Member RELATIONSHIP ->
  exists s evs,
    _execute_graph_query E request
    = (Ret s, ERun (QMultiHop "HOLDS" (max_hops request) (entity request)) :: evs).
Proof.
  intros Ht. unfold _execute_graph_query, graph_query_paths. rewrite Ht.
  unfold find_multi_hop_relationships.
  destruct (failure _) as [e|]; step_stage; [by eexists _, _|].
  destruct (for_records relationship_path _) as [[ps|e] evs]; by eexists _, _.
Qed.

(** C8 (amended). [max_hops] is not validated: a request with [max_hops]
    of 0 or below is processed as any other. [process_query] returns a
    result of the completed pipeline. For a shareholder query the store is
    queried with the [max_hops] of the request and the result holds the
    paths built from what the store yields. For a relationship query the
    store is queried with the [max_hops] of the request as well; the result
    holds one path per record the store yields, in order, when the store
    does not fail and every node has a label, and no path when the store
    fails or some node has no label. *)
Theorem max_hops_not_validated (E : Env) (request : QueryRequest)
    (Hhops : (max_hops request <= 0)%Z) :
  exists r,
    outcome (process_query E request) = Ret r /\
    metadata r
    = MetaPipeline (entity request) (max_hops request) 3 (length (paths r)) /\
    (query_type request = Member SHAREHOLDER ->
       In (ERun (QShareholders (entity request) (max_hops request)))
          (events (process_query E request)) /\
       paths r
       = fst (shareholders_loop E
                (yielded (run_shareholders E (entity request) (max_hops request)))
                [])) /\
    (query_type request = Member RELATIONSHIP ->
       In (ERun (QMultiHop "HOLDS" (max_hops request) (entity request)))
          (events (process_query E request)) /\
       (failure (run_multi_hop E "HOLDS" (max_hops request) (entity request)) = None ->
        Forall labelled_record
          (yielded (run_multi_hop E "HOLDS" (max_hops request) (entity request))) ->
        Forall2 relationship_path_of
          (yielded (run_multi_hop E "HOLDS" (max_hops request) (entity request)))
          (paths r)) /\
       (failure (run_multi_hop E "HOLDS" (max_hops request) (entity request)) <> None \/
        ~ Forall labelled_record
            (yielded (run_multi_hop E "HOLDS" (max_hops request) (entity request))) ->
        paths r = [])).
Proof.
  destruct (process_query_stages E request)
    as (s1 & s2 & s3 & fa & ps & H1 & H2 & H3 & H4 & _).
  rewrite (process_query_run E request s1 s2 s3 fa H1 H2 H3 H4).
  eexists. split; [reflexivity|]. split; [reflexivity|].
  cbn [outcome events fst snd paths]. split.
  - intros Ht.
    destruct (execute_graph_query_shareholder E request Ht) as (s & evs & Hs & Hr).
    rewrite Hs in H2 |- *. injection H2 as <-. rewrite Hr. split; [|done].
    right. apply in_or_app. right. by left.
  - intros Ht. split; [|split].
    + destruct (execute_graph_query_relationship E request Ht) as (s & evs & Hs).
      rewrite Hs. right. apply in_or_app. right. by left.
    + intros Hok Hall.
      destruct (proj1 (relationship_query_paths E request Ht Hok) Hall)
        as (ps' & Hps & Hof).
      apply (proj1 (execute_graph_query_of_paths E request)) in Hps.
      rewrite Hps in H2. injection H2 as <-. exact Hof.
    + intros Hbad.
      assert (exists e evs, graph_query_paths E request = (Raise e, evs))
        as (e & evs & Hraise).
      { destruct (failure (run_multi_hop E "HOLDS" (max_hops request) (entity request)))
          as [e|] eqn:Hf.
        - unfold graph_query_paths, find_multi_hop_relationships.
          rewrite Ht, Hf. by eexists _, _.
        - destruct Hbad as [?|Hnot]; [done|]. eexists _, _.
          exact (proj2 (relationship_query_paths E request Ht Hf) Hnot). }
      apply (proj2 (execute_graph_query_of_paths E request)) in Hraise.
      rewrite Hraise in H2. by injection H2 as <-.
Qed.

Lemma max_hops_not_validated_witness :
  exists r,
    outcome (process_query sample_env
               (sample_request (Member SHAREHOLDER) "字节跳动" 0)) = Ret r /\
    metadata r = MetaPipeline "字节跳动" 0 3 (length (paths r)) /\
    In (ERun (QShareholders "字节跳动" 0))
       (events (process_query sample_env
                  (sample_request (Member SHAREHOLDER) "字节跳动" 0))).
Proof.
  destruct (max_hops_not_validated sample_env
              (sample_request (Member SHAREHOLDER) "字节跳动" 0))
    as (r & Hr & Hm & Hs & _); [simpl; lia|].
  exists r. split; [exact Hr|]. split; [exact Hm|]. by apply Hs.
Defined.

(** C8 (counterexample). A shareholder request with [max_hops = 0] is not
    rejected before the traversal: the store is queried with 0 hops and the
    two paths it yields reach the result. *)
Lemma zero_max_hops_reaches_the_store :
  exists r,
    outcome (process_query sample_env
               (sample_request (Member SHAREHOLDER) "字节跳动" 0)) = Ret r /\
    In (ERun (QShareholders "字节跳动" 0))
       (events (process_query sample_env
                  (sample_request (Member SHAREHOLDER) "字节跳动" 0))) /\
    length (paths r) = 2%nat /\
    ~ res_confidence r == 0.
Proof.
  eexists. split; [vm_compute; reflexivity|]. split; [vm_compute; tauto|].
  split; [done|]. vm_compute. discriminate.
Qed.

(** ** Store failures at the adapters *)





(** ** The confidence of the paths of each traversal branch *)

Lemma shareholder_path_confidence E record p :
  shareholder_path E record = inr p ->
  _calculate_path_confidence (rec_hops record) (relations p) = inr (confidence p).
Proof.
  unfold shareholder_path.
  destruct (_calculate_path_confidence _ _) as [e|c] eqn:Hc; [done|].
  by intros [= <-].
Qed.

Lemma shareholders_loop_paths E records acc p :
  In p (fst (shareholders_loop E records acc)) ->
  In p acc \/ exists record, In record records /\ shareholder_path E record = inr p.
Proof.
  revert acc. induction records as [|record records IH]; intros acc; simpl.
  - by left.
  - destruct (shareholder_path E record) as [e|p'] eqn:Hp; simpl; [by left|].
    intros Hin. apply IH in Hin as [Hin|(r & Hr & Hpath)].
    + apply in_app_or in Hin as [Hin|[<-|[]]]; [by left|]. right. exists record. auto.
    + right. exists r. auto.
Qed.

Lemma find_controlling_shareholder_confidence E company p :
  outcome (find_controlling_shareholder E company) = Ret (Some p) ->
  exists record above,
    head (yielded (run_controlling E company)) = Some record /\
    py_gt (py_get (rec_r record) "percentage" (VNum 0)) 50 = inr above /\
    confidence p = (if above : bool then 0.9 else 0.7) /\
    map rel_properties (relations p) = [rec_r record].
Proof.
  unfold find_controlling_shareholder, single.
  destruct (failure _); [done|].
  destruct (head _) as [record|]; [|done].
  run_stage; intros [= <-]; try done.
  all: eexists _, _; repeat split; try done.
Qed.

Lemma relationship_paths_confidence (results : list MultiHopResult) ps p :
  outcome (for_records relationship_path results) = Ret ps -> In p ps ->
  exists r, In r results /\ confidence p = Qmax 0.1 (1.0 - inject_Z (hop_count r) * 0.2).
Proof.
  revert ps. induction results as [|r results IH]; intros ps; simpl.
  - by intros [= <-].
  - intros Hrun Hin.
    apply bind_outcome_inv in Hrun as (p' & Hp' & Hrun).
    apply bind_outcome_inv in Hrun as (ps' & Hps' & Hrun).
    injection Hrun as <-. destruct Hin as [<-|Hin].
    + exists r. split; [by left|].
      unfold relationship_path in Hp'.
      apply bind_outcome_inv in Hp' as (es & _ & Hp'). by injection Hp' as <-.
    + destruct (IH ps' Hps' Hin) as (r' & Hr' & Hc). exists r'. auto.
Qed.

Lemma relation_bonus_loop_ge (rs : list Relation) (acc b : Q) :
  relation_bonus_loop rs acc = inr b -> acc <= b.
Proof.
  revert acc. induction rs as [|r rs IH]; intros acc; cbn [relation_bonus_loop].
  - intros [= <-]. lra.
  - destruct (py_gt (py_get (rel_properties r) "percentage" (VNum 0)) 50) as [e|[|]];
      [done| |].
    + intros H. apply IH in H. lra.
    + destruct (py_eq_str _ _); intros H; apply IH in H; lra.
Qed.

(** From one to five hops the inline confidence of the relationship branch
    is below the score of the same hops, whatever the relations. *)
Lemma inline_confidence_below_score (h : Z) (rs : list Relation) (c : Q) :
  (1 <= h <= 5)%Z ->
  _calculate_path_confidence h rs = inr c ->
  Qmax 0.1 (1.0 - inject_Z h * 0.2) < c.
Proof.
  intros [Hh1 Hh5]. unfold _calculate_path_confidence.
  destruct (relation_bonus_loop rs 0) as [e|b] eqn:Hb; [done|]. intros [= <-].
  apply relation_bonus_loop_ge in Hb.
  assert (1 <= inject_Z h) as H1 by (change 1 with (inject_Z 1); by rewrite <- Zle_Qle).
  assert (inject_Z h <= 5) as H5 by (change 5 with (inject_Z 5); by rewrite <- Zle_Qle).
  assert (inject_Z (h - 1) == inject_Z h - 1) as Hm.
  { unfold Qeq, Qminus, Qplus, Qopp, inject_Z. simpl. lia. }
  pose proof (Q.le_max_r 0.1 (1.0 - inject_Z (h - 1) * 0.2)) as Hmax.
  apply Q.min_glb_lt; apply Q.max_lub_lt; lra.
Qed.

(** C4 (amended). Of the traversal branches only the shareholder branch
    takes the confidence of a path from the scorer, applied to the hop count
    of the record and the relations of the path. The control-chain branch
    sets 0.9 when the percentage of the relation exceeds 50 and 0.7
    otherwise, and the entity-information branch sets the constant 0.7. The
    relationship branch computes [max(0.1, 1.0 - hop_count * 0.2)] from the
    hop count of the record alone: from one to five hops this is below the
    score of the same hops and relations. *)
Theorem traversal_confidence (E : Env) (request : QueryRequest)
    (ps : list QueryPath) (p : QueryPath)
    (Hrun : outcome (graph_query_paths E request) = Ret ps) (Hin : In p ps) :
  (query_type request = Member SHAREHOLDER ->
     exists record,
       In record (yielded (run_shareholders E (entity request) (max_hops request))) /\
       _calculate_path_confidence (rec_hops record) (relations p)
       = inr (confidence p)) /\
  (query_type request = Member CONTROL_CHAIN ->
     exists record above,
       head (yielded (run_controlling E (entity request))) = Some record /\
       map rel_properties (relations p) = [rec_r record] /\
       py_gt (py_get (rec_r record) "percentage" (VNum 0)) 50 = inr above /\
       confidence p = (if above : bool then 0.9 else 0.7)) /\
  (query_type request = Member ENTITY_INFO ->
     confidence p = 0.7 /\ relations p = []) /\
  (query_type request = Member RELATIONSHIP ->
     exists record,
       In record
          (yielded (run_multi_hop E "HOLDS" (max_hops request) (entity request))) /\
       confidence p = Qmax 0.1 (1.0 - inject_Z (rec_hop_count record) * 0.2) /\
       ((1 <= rec_hop_count record <= 5)%Z ->
        forall c,
          _calculate_path_confidence (rec_hop_count record) (relations p) = inr c ->
          confidence p < c)).
Proof.
  unfold graph_query_paths in Hrun.
  split; [|split; [|split]]; intros Ht; rewrite Ht in Hrun.
  - destruct (find_shareholders_run E (entity request) (max_hops request))
      as (evs & Hfs & _).
    rewrite Hfs in Hrun. injection Hrun as <-.
    apply shareholders_loop_paths in Hin as [[]|(record & Hrec & Hpath)].
    exists record. split; [done|]. by apply (shareholder_path_confidence E).
  - apply bind_outcome_inv in Hrun as ([p'|] & Hfind & Hrun);
      injection Hrun as <-; [|done].
    destruct Hin as [<-|[]].
    destruct (find_controlling_shareholder_confidence E _ _ Hfind)
      as (record & above & H1 & H2 & H3 & H4).
    by exists record, above.
  - apply bind_outcome_inv in Hrun as (nb & _ & Hrun).
    destruct (neighbors nb); injection Hrun as <-; [done|].
    by destruct Hin as [<-|[]].
  - apply bind_outcome_inv in Hrun as (results & Hfind & Hrun).
    unfold find_multi_hop_relationships in Hfind.
    destruct (failure (run_multi_hop E "HOLDS" (max_hops request) (entity request)));
      [done|].
    injection Hfind as <-.
    destruct (relationship_paths_confidence _ ps p Hrun Hin) as (r & Hr & Hc).
    apply in_map_iff in Hr as (record & <- & Hrec).
    exists record. cbn [hop_count multi_hop_result] in Hc.
    split; [done|]. split; [done|]. intros Hh c Hscore. rewrite Hc.
    by apply (inline_confidence_below_score _ (relations p)).
Qed.

Lemma traversal_confidence_witness :
  exists p,
    outcome (graph_query_paths sample_env
               (sample_request (Member CONTROL_CHAIN) "甲公司" 3)) = Ret [p] /\
    exists record above,
      head (yielded (run_controlling sample_env "甲公司")) = Some record /\
      map rel_properties (relations p) = [rec_r record] /\
      py_gt (py_get (rec_r record) "percentage" (VNum 0)) 50 = inr above /\
      confidence p = (if above : bool then 0.9 else 0.7).
Proof.
  eexists. split; [vm_compute; reflexivity|].
  refine (proj1 (proj2 (traversal_confidence sample_env
            (sample_request (Member CONTROL_CHAIN) "甲公司" 3) _ _ _ _)) _).
  - vm_compute. reflexivity.
  - by left.
  - reflexivity.
Defined.

(** C4 (counterexample). The control-chain branch gives the path of a 60%
    holder the confidence 0.9; the scorer gives the same single relation at
    one hop the confidence 1.0. *)
Lemma control_chain_confidence_not_scored :
  exists p c,
    outcome (graph_query_paths sample_env
               (sample_request (Member CONTROL_CHAIN) "甲公司" 3)) = Ret [p] /\
    _calculate_path_confidence 1 (relations p) = inr c /\
    ~ confidence p == c.
Proof.
  eexists _, _. split; [vm_compute; reflexivity|].
  split; [vm_compute; reflexivity|]. vm_compute. discriminate.
Qed.

(** ** The statistics aggregator *)

Lemma count_where_cons f r rs :
  count_where f (r :: rs) = ((if f r then 1 else 0) + count_where f rs)%Z.
Proof. unfold count_where. simpl. destruct (f r); simpl length; lia. Qed.

Lemma count_where_nonneg f rs : (0 <= count_where f rs)%Z.
Proof. unfold count_where. lia. Qed.

Lemma py_sum_fold_right (xs : list Q) (a : Q) :
  fold_left Qplus xs a == a + fold_right Qplus 0 xs.
Proof.
  revert a. induction xs as [|x xs IH]; intros a; simpl.
  - lra.
  - rewrite IH. lra.
Qed.

Lemma py_div_mean (xs : list Q) :
  xs <> [] ->
  exists q, py_div (py_sum xs) (Z.of_nat (length xs)) = inr q /\ q == mean xs.
Proof.
  intros Hne. unfold py_div.
  destruct (Z.eqb_spec (Z.of_nat (length xs)) 0) as [H0|_].
  - destruct xs; [done|simpl in H0; lia].
  - eexists. split; [done|]. unfold mean, py_sum.
    rewrite py_sum_fold_right. by rewrite Qplus_0_l.
Qed.

(** One round of the first loop. *)
Lemma count_by_type_cons r rest stats :
  exists stats',
    count_by_type (r :: rest) stats = count_by_type rest stats' /\
    forall key,
      stats' !! key
      = if of_type key r
        then Some (mkTypeStat (count (entry stats key) + 1)
                     (if successful r then success_rate (entry stats key) + 1
                      else success_rate (entry stats key)))
        else stats !! key.
Proof.
  eexists. split; [reflexivity|]. intros key. unfold of_type, entry.
  destruct (String.eqb_spec (value (res_query_type r)) key) as [<-|Hne].
  - destruct (stats !! value (res_query_type r)) as [st|] eqn:Hst;
      destruct (successful r);
      rewrite ?lookup_alter_eq, ?lookup_insert_eq, ?Hst; reflexivity.
  - destruct (stats !! value (res_query_type r)) as [st|] eqn:Hst;
      destruct (successful r);
      rewrite ?lookup_alter_ne, ?lookup_insert_ne by done; reflexivity.
Qed.

Lemma count_by_type_spec (results : list QueryResult) (stats : gmap string TypeStat)
    (key : string) :
  let n := count_where (of_type key) results in
  let k := count_where (fun r => of_type key r && successful r) results in
  (is_Some (count_by_type results stats !! key)
   <-> is_Some (stats !! key) \/ (0 < n)%Z) /\
  count (entry (count_by_type results stats) key) = (count (entry stats key) + n)%Z /\
  success_rate (entry (count_by_type results stats) key)
  == success_rate (entry stats key) + inject_Z k.
Proof.
  revert stats. induction results as [|r rest IH]; intros stats.
  - cbv zeta. change (count_where (of_type key) []) with 0%Z.
    change (count_where (fun r => of_type key r && successful r) []) with 0%Z.
    cbn [count_by_type]. split; [|split]; [|lia|change (inject_Z 0) with 0; lra].
    split; [by left|]. intros [H|H]; [done|lia].
  - destruct (count_by_type_cons r rest stats) as (stats' & -> & Hstep).
    destruct (IH stats') as (IH1 & IH2 & IH3). clear IH.
    cbv zeta. rewrite !count_where_cons.
    pose proof (count_where_nonneg (of_type key) rest) as Hn.
    assert (entry stats' key
            = if of_type key r
              then mkTypeStat (count (entry stats key) + 1)
                     (if successful r then success_rate (entry stats key) + 1
                      else success_rate (entry stats key))
              else entry stats key) as Hentry.
    { unfold entry at 1. rewrite Hstep. by destruct (of_type key r). }
    rewrite IH1, IH2, IH3, Hentry, Hstep.
    destruct (of_type key r); cbn [andb count success_rate].
    + split; [|split]; [|lia|].
      * split; [intros _; right; lia|intros _; by left].
      * destruct (successful r); cbv iota; rewrite inject_Z_plus;
          [change (inject_Z 1) with 1|change (inject_Z 0) with 0]; lra.
    + split; [|split]; [|lia|by rewrite Z.add_0_l].
      by rewrite Z.add_0_l.
Qed.

Lemma query_type_statistics_lookup (results : list QueryResult) (key : string) :
  let n := count_where (of_type key) results in
  let k := count_where (fun r => of_type key r && successful r) results in
  (n = 0%Z -> (to_rate <$> count_by_type results ∅) !! key = None) /\
  ((0 < n)%Z ->
     exists st, (to_rate <$> count_by_type results ∅) !! key = Some st /\
       count st = n /\ success_rate st == inject_Z k / inject_Z n).
Proof.
  cbv zeta. destruct (count_by_type_spec results ∅ key) as (H1 & H2 & H3).
  cbv zeta in H1, H2, H3. unfold entry in H2, H3. rewrite lookup_empty in *.
  cbn [default count success_rate] in H2, H3. rewrite lookup_fmap. split.
  - intros Hn. rewrite Hn in H1.
    destruct (count_by_type results ∅ !! key) as [st|]; [|done].
    destruct H1 as [[[x Hx]|H1] _]; [by eexists|done|lia].
  - intros Hn. destruct H1 as [_ H1]. destruct H1 as [st Hst]; [by right|].
    rewrite Hst in *. cbn [default from_option Datatypes.id] in H2, H3.
    cbn [fmap option_fmap option_map].
    eexists. split; [reflexivity|]. unfold to_rate. cbn [count success_rate].
    rewrite H2, Z.add_0_l. split; [done|].
    destruct (Z.ltb_spec 0 (count_where (of_type key) results)) as [_|Hle]; [|lia].
    rewrite H3. by rewrite Qplus_0_l.
Qed.

(** C9. [get_query_statistics] of the empty list is the empty summary and
    no division takes place; of a non-empty list it is the total count, the
    count of results with confidence above 0.5, their ratio, the mean
    confidence, the mean execution time, and for every query type present
    its count and its ratio of successes. *)
Theorem get_query_statistics_summary (results : list QueryResult)
    (Hne : results <> []) :
  get_query_statistics [] = inr StatsEmpty /\
  exists s,
    get_query_statistics results = inr (StatsFull s) /\
    total_queries s = Z.of_nat (length results) /\
    successful_queries s = count_where successful results /\
    stat_success_rate s
    == inject_Z (count_where successful results) / inject_Z (Z.of_nat (length results)) /\
    average_confidence s == mean (map res_confidence results) /\
    average_execution_time s == mean (map execution_time results) /\
    forall key,
      (count_where (of_type key) results = 0%Z ->
         query_type_statistics s !! key = None) /\
      ((0 < count_where (of_type key) results)%Z ->
         exists st, query_type_statistics s !! key = Some st /\
           count st = count_where (of_type key) results /\
           success_rate st
           == inject_Z (count_where (fun r => of_type key r && successful r) results)
              / inject_Z (count_where (of_type key) results)).
Proof.
  split; [done|].
  destruct results as [|r rest]; [done|]. set (results := r :: rest) in *.
  assert (map res_confidence results <> []) as Hc by done.
  assert (map execution_time results <> []) as Ht by done.
  destruct (py_div_mean _ Hc) as (avg_c & Hdc & Havg_c).
  destruct (py_div_mean _ Ht) as (avg_t & Hdt & Havg_t).
  rewrite length_map in Hdc, Hdt.
  unfold get_query_statistics. fold results. cbv zeta.
  change (match results with [] => inr StatsEmpty | _ :: _ => ?x end) with x.
  rewrite Hdc, Hdt. unfold py_div at 1.
  destruct (Z.eqb_spec (Z.of_nat (length results)) 0) as [H0|_]; [simpl in H0; lia|].
  eexists. split; [reflexivity|]. cbn [total_queries successful_queries
    stat_success_rate average_confidence average_execution_time query_type_statistics].
  repeat (split; [done|]). intros key. apply query_type_statistics_lookup.
Qed.

Lemma get_query_statistics_summary_witness :
  exists s,
    get_query_statistics sample_results = inr (StatsFull s) /\
    total_queries s = 3%Z /\ successful_queries s = 2%Z /\
    stat_success_rate s == 2 / 3 /\
    exists st, query_type_statistics s !! "shareholder" = Some st /\
      count st = 2%Z /\ success_rate st == 1 / 2.
Proof.
  destruct (get_query_statistics_summary sample_results)
    as (_ & s & Hs & Ht & Hn & Hr & _ & _ & Hk); [discriminate|].
  exists s. split; [exact Hs|]. split; [exact Ht|]. split; [exact Hn|].
  split; [exact Hr|].
  destruct (Hk "shareholder") as (_ & Hsome).
  destruct Hsome as (st & Hst & Hc & Hrate); [reflexivity|].
  exists st. split; [exact Hst|]. split; [exact Hc|exact Hrate].
Defined.

(** The statistics of the three sample results, computed. *)
Example get_query_statistics_sample :
  exists s,
    get_query_statistics sample_results = inr (StatsFull s) /\
    average_confidence s == 17 / 30 /\
    average_execution_time s == 1.2 /\
    (to_rate <$> count_by_type sample_results ∅) !! "control_chain"
    = Some (mkTypeStat 1 (1 / 1)) /\
    query_type_statistics s !! "relationship" = None.
Proof.
  eexists. split; [vm_compute; reflexivity|]. by vm_compute.
Qed.

(** ** The base confidence in binary64 *)

(** At one hop the float is 1.0 and at three hops it is the float nearest
    to 0.6, as in the exact model; at four and five hops the floats differ
    from the exact values in the last place. *)
Example binary64_confidence_by_hops :
  map Binary64._calculate_path_confidence [1; 2; 3; 4; 5; 6; 7]%Z
  = Binary64.by_hops.
Proof. reflexivity. Qed.

(** * Further properties *)

(** ** The confidence scorer *)

Lemma relation_bonus_loop_numeric (rs : list Relation) (acc b : Q) :
  relation_bonus_loop rs acc = inr b -> Forall numeric_percentage rs.
Proof.
  revert acc. induction rs as [|r rs IH]; intros acc; [by constructor|].
  cbn [relation_bonus_loop].
  destruct (py_get (rel_properties r) "percentage" (VNum 0)) as [|q|s] eqn:Hq;
    cbn [py_gt]; try done.
  intros Hloop. constructor; [by exists q|].
  destruct (gt q 50); [by eapply IH|].
  destruct (py_eq_str _ _); by eapply IH.
Qed.

Lemma relation_bonus_loop_error (rs : list Relation) (acc : Q) (e : Exn) :
  relation_bonus_loop rs acc = inl e ->
  exists r, In r rs /\ ~ numeric_percentage r /\
    py_gt (py_get (rel_properties r) "percentage" (VNum 0)) 50 = inl e.
Proof.
  revert acc. induction rs as [|r rs IH]; intros acc; [done|].
  cbn [relation_bonus_loop].
  destruct (py_gt (py_get (rel_properties r) "percentage" (VNum 0)) 50)
    as [e'|above] eqn:Hgt.
  - intros [= <-]. exists r. split; [by left|]. split; [|done].
    intros [q Hq]. by rewrite Hq in Hgt.
  - intros Hloop.
    assert (exists acc', relation_bonus_loop rs acc' = inl e) as [acc' Hacc'].
    { destruct above; [by eexists|]. destruct (py_eq_str _ _); by eexists. }
    destruct (IH acc' Hacc') as (r' & Hin & Hr'). exists r'. split; [by right|done].
Qed.

(** X1. The scorer returns a score exactly when the percentage of every
    relation, where present, is a number; otherwise it raises the
    [TypeError] of the comparison of some relation's percentage with 50. *)
Theorem path_confidence_defined_iff_numeric (h : Z) (rs : list Relation) :
  ((exists c, _calculate_path_confidence h rs = inr c)
   <-> Forall numeric_percentage rs) /\
  (forall e, _calculate_path_confidence h rs = inl e ->
     exists r, In r rs /\ ~ numeric_percentage r /\
       e = "'>' not supported between instances of '"
           +:+ py_type_name (py_get (rel_properties r) "percentage" (VNum 0))
           +:+ "' and 'int'").
Proof.
  unfold _calculate_path_confidence. split; [split|].
  - intros [c Hc].
    destruct (relation_bonus_loop rs 0) as [e|b] eqn:Hloop; [done|].
    by eapply relation_bonus_loop_numeric.
  - intros Hnum. destruct (relation_bonus_loop_spec rs 0 Hnum) as (b & -> & _).
    by eexists.
  - intros e He. destruct (relation_bonus_loop rs 0) as [e'|b] eqn:Hloop; [|done].
    injection He as ->.
    destruct (relation_bonus_loop_error rs 0 e Hloop) as (r & Hin & Hnot & Hgt).
    exists r. split; [done|]. split; [done|].
    destruct (py_get (rel_properties r) "percentage" (VNum 0));
      unfold py_gt in Hgt; by simplify_eq.
Qed.

Lemma base_confidence_one_hop (h : Z) : (h <= 1)%Z -> 1.0 <= base_confidence h.
Proof.
  intros Hh. unfold base_confidence.
  assert (inject_Z (h - 1) <= 0) by (change 0 with (inject_Z 0); rewrite <- Zle_Qle; lia).
  eapply Qle_trans; [|apply Q.le_max_r]. lra.
Qed.

(** X2. A path of at most one hop scores 1.0 whatever its relations: the
    bonuses have no effect at the cap. *)
Theorem path_confidence_one_hop (h : Z) (rs : list Relation)
    (Hh : (h <= 1)%Z) (Hnum : Forall numeric_percentage rs) :
  exists c, _calculate_path_confidence h rs = inr c /\ c == 1.0.
Proof.
  unfold _calculate_path_confidence.
  destruct (relation_bonus_loop_spec rs 0 Hnum) as (b & -> & Hb).
  eexists. split; [done|]. fold (base_confidence h).
  pose proof (base_confidence_one_hop h Hh).
  pose proof (count_of_nonneg exceeds_50 rs).
  pose proof (count_of_nonneg (fun r => negb (exceeds_50 r) && controlling r) rs).
  apply Q.min_l. lra.
Qed.

Lemma path_confidence_one_hop_witness :
  exists c, _calculate_path_confidence 1 [majority_relation] = inr c /\ c == 1.0.
Proof.
  apply (path_confidence_one_hop 1 [majority_relation]); [lia|].
  constructor; [|constructor]. exists 60. reflexivity.
Defined.

(** X4. With the same relations more hops never raise the score, and with
    the same hops one more relation never lowers it. *)
Theorem path_confidence_monotone (h h' : Z) (r : Relation) (rs : list Relation)
    (Hh : (h <= h')%Z) (Hnum : Forall numeric_percentage (r :: rs)) :
  exists c c' c'',
    _calculate_path_confidence h rs = inr c /\
    _calculate_path_confidence h' rs = inr c' /\
    _calculate_path_confidence h (r :: rs) = inr c'' /\
    c' <= c /\ c <= c''.
Proof.
  pose proof (Forall_inv_tail Hnum) as Hrs.
  unfold _calculate_path_confidence.
  destruct (relation_bonus_loop_spec rs 0 Hrs) as (b & -> & Hb).
  destruct (relation_bonus_loop_spec (r :: rs) 0 Hnum) as (b' & -> & Hb').
  eexists _, _, _. repeat (split; [done|]).
  pose proof (base_antitone h h' Hh) as Hbase.
  pose proof (count_of_cons exceeds_50 r rs) as H1.
  pose proof (count_of_cons (fun r => negb (exceeds_50 r) && controlling r) r rs) as H2.
  cbv beta in H2. split.
  - apply Q.min_le_compat_l. lra.
  - apply Q.min_le_compat_l.
    destruct (exceeds_50 r); destruct (negb _ && controlling r); lra.
Qed.

Lemma path_confidence_monotone_witness :
  exists c c' c'',
    _calculate_path_confidence 3 [] = inr c /\
    _calculate_path_confidence 5 [] = inr c' /\
    _calculate_path_confidence 3 [majority_relation] = inr c'' /\
    c' <= c /\ c <= c''.
Proof.
  apply (path_confidence_monotone 3 5 majority_relation []); [lia|].
  constructor; [by exists 60|constructor].
Defined.

(** ** The reasoning string *)

Lemma reasoning_parts_length E all rs visited i :
  (i + length visited < length all)%nat ->
  length (reasoning_parts E all rs i visited)
  = Nat.min (length visited) (length rs - i).
Proof.
  revert i. induction visited as [|e visited IH]; intros i Hlen; [done|].
  cbn [reasoning_parts length] in *.
  destruct (rs !! i) as [r|] eqn:Hr.
  - apply lookup_lt_Some in Hr.
    destruct (lookup_lt_is_Some_2 all (i + 1)) as [next Hnext]; [lia|].
    rewrite Hnext. cbn [length]. rewrite IH by lia. lia.
  - apply lookup_ge_None in Hr. rewrite IH by lia. lia.
Qed.

(** X5. The reasoning string of non-empty lists joins as many triples as
    there are relations paired with a following entity: the lesser of the
    number of entities minus one and the number of relations. *)
Theorem generate_reasoning_triples (E : Env) (es : list Entity) (rs : list Relation)
    (Hes : es <> []) (Hrs : rs <> []) :
  _generate_reasoning E es rs
  = join " -> " (reasoning_parts E es rs 0 (but_last es)) /\
  length (reasoning_parts E es rs 0 (but_last es))
  = Nat.min (length es - 1) (length rs).
Proof.
  split; [by apply generate_reasoning_nonempty_inputs|].
  assert (length (but_last es) = (length es - 1)%nat) as Hlen.
  { unfold but_last. destruct es as [|e es] using rev_ind; [done|].
    rewrite removelast_last, length_app. simpl. lia. }
  rewrite reasoning_parts_length; rewrite Hlen.
  - by rewrite Nat.sub_0_r.
  - destruct es; [done|]. simpl. lia.
Qed.

Lemma generate_reasoning_triples_witness :
  length (reasoning_parts sample_env
            [mkEntity (VStr "c") (VStr "甲公司") (VStr "Company") ∅;
             mkEntity (VStr "s") (VStr "乙集团") (VStr "Shareholder") ∅;
             mkEntity (VStr "t") (VStr "丙基金") (VStr "Shareholder") ∅]
            [majority_relation] 0
            (but_last
               [mkEntity (VStr "c") (VStr "甲公司") (VStr "Company") ∅;
                mkEntity (VStr "s") (VStr "乙集团") (VStr "Shareholder") ∅;
                mkEntity (VStr "t") (VStr "丙基金") (VStr "Shareholder") ∅]))
  = Nat.min (3 - 1) 1.
Proof.
  refine (proj2 (generate_reasoning_triples sample_env _ [majority_relation] _ _));
    discriminate.
Defined.

Lemma reasoning_parts_take E all rs visited i :
  reasoning_parts E all rs i visited
  = reasoning_parts E all rs i (take (length rs - i) visited).
Proof.
  revert i. induction visited as [|e visited IH]; intros i.
  - by rewrite take_nil.
  - destruct (rs !! i) as [r|] eqn:Hr.
    + pose proof (lookup_lt_Some _ _ _ Hr) as Hlt.
      replace (length rs - i)%nat with (S (length rs - S i)) by lia.
      cbn [take reasoning_parts]. rewrite Hr, <- !IH. done.
    + pose proof (lookup_ge_None_1 _ _ Hr) as Hge.
      replace (length rs - i)%nat with 0%nat by lia.
      cbn [take reasoning_parts]. rewrite Hr, IH.
      replace (length rs - S i)%nat with 0%nat by lia. by rewrite take_0.
Qed.

Lemma reasoning_parts_ext E all all' rs rs' visited i :
  (forall j, (i <= j < i + length visited)%nat -> rs !! j = rs' !! j) ->
  (forall j, (i <= j < i + length visited)%nat ->
     all !! (j + 1)%nat = all' !! (j + 1)%nat) ->
  reasoning_parts E all rs i visited = reasoning_parts E all' rs' i visited.
Proof.
  revert i. induction visited as [|e visited IH]; intros i Hrs Hall; [done|].
  cbn [reasoning_parts length] in *.
  rewrite <- (Hrs i), <- (Hall i) by lia.
  rewrite (IH (S i)); [done| |]; intros j Hj; [apply Hrs|apply Hall]; lia.
Qed.

(** X6. For a well-formed path, one entity more than relations, surplus
    entities and surplus relations are not read: appending either leaves
    the reasoning string unchanged. *)
Theorem generate_reasoning_ignores_surplus (E : Env) (es more_es : list Entity)
    (rs more_rs : list Relation)
    (Hes : length es = S (length rs)) (Hrs : rs <> []) :
  _generate_reasoning E (es ++ more_es) rs = _generate_reasoning E es rs /\
  _generate_reasoning E es (rs ++ more_rs) = _generate_reasoning E es rs.
Proof.
  assert (es <> []) as Hne by (by destruct es).
  assert (length (but_last es) = length rs) as Hlen.
  { unfold but_last. destruct es as [|e es] using rev_ind; [done|].
    rewrite removelast_last. rewrite length_app in Hes. simpl in Hes. lia. }
  split.
  - rewrite !generate_reasoning_nonempty_inputs by (try done; by destruct es).
    f_equal. rewrite (reasoning_parts_take E (es ++ more_es)).
    rewrite Nat.sub_0_r.
    assert (take (length rs) (but_last (es ++ more_es)) = but_last es) as ->.
    { unfold but_last in *. destruct more_es as [|m more_es].
      - rewrite app_nil_r, <- Hlen. apply firstn_all.
      - rewrite removelast_app by done.
        destruct es as [|e es] using rev_ind; [done|].
        rewrite removelast_last in *. rewrite <- app_assoc, <- Hlen.
        by rewrite take_app_length. }
    apply reasoning_parts_ext; [done|].
    intros j Hj. rewrite lookup_app_l; [done|]. lia.
  - rewrite !generate_reasoning_nonempty_inputs by (try done; by destruct rs).
    f_equal. apply reasoning_parts_ext; [|done].
    intros j Hj. rewrite lookup_app_l; [done|]. lia.
Qed.

Lemma generate_reasoning_ignores_surplus_witness :
  _generate_reasoning sample_env
    ([mkEntity (VStr "c") (VStr "甲公司") (VStr "Company") ∅;
      mkEntity (VStr "s") (VStr "乙集团") (VStr "Shareholder") ∅]
     ++ [mkEntity (VStr "t") (VStr "丙基金") (VStr "Shareholder") ∅])
    [majority_relation]
  = _generate_reasoning sample_env
      [mkEntity (VStr "c") (VStr "甲公司") (VStr "Company") ∅;
       mkEntity (VStr "s") (VStr "乙集团") (VStr "Shareholder") ∅]
      [majority_relation].
Proof.
  refine (proj1 (generate_reasoning_ignores_surplus sample_env _ _
                   [majority_relation] [] _ _)); [reflexivity|discriminate].
Defined.

(** ** find_shareholders *)

Lemma shareholders_loop_spec E records acc :
  exists ps,
    fst (shareholders_loop E records acc) = acc ++ ps /\
    Forall2 (fun record p => shareholder_path E record = inr p)
            (take (length ps) records) ps /\
    match snd (shareholders_loop E records acc) with
    | None => length ps = length records
    | Some e =>
        exists bad, records !! length ps = Some bad /\
                    shareholder_path E bad = inl e
    end.
Proof.
  revert acc. induction records as [|record records IH]; intros acc.
  - exists []. cbn. by rewrite app_nil_r.
  - cbn [shareholders_loop].
    destruct (shareholder_path E record) as [e|p] eqn:Hp.
    + exists []. cbn. rewrite app_nil_r. split; [done|]. split; [constructor|].
      by exists record.
    + destruct (IH (acc ++ [p])) as (ps & Hfst & Hall & Hsnd).
      exists (p :: ps). rewrite Hfst, <- app_assoc. split; [done|].
      split; [by constructor|].
      destruct (snd _); cbn [length]; [done|]. by rewrite Hsnd.
Qed.

Lemma numeric_record_relations (record : ShareholderRecord) :
  numeric_record record <->
  Forall numeric_percentage
    (map (fun r => mkRelation (VStr "") (VStr "") (row_rel_type r)
                     (row_rel_properties r))
         (rec_relations record)).
Proof. unfold numeric_record. by rewrite Forall_map. Qed.

Lemma shareholder_path_defined E record :
  (numeric_record record -> exists p, shareholder_path E record = inr p) /\
  (~ numeric_record record -> exists e, shareholder_path E record = inl e).
Proof.
  rewrite numeric_record_relations. unfold shareholder_path, _calculate_path_confidence.
  split.
  - intros Hnum. destruct (relation_bonus_loop_spec _ 0 Hnum) as (b & -> & _).
    by eexists.
  - intros Hnot. destruct (relation_bonus_loop _ 0) as [e|b] eqn:Hloop; [by eexists|].
    destruct Hnot. by eapply relation_bonus_loop_numeric.
Qed.

Lemma shareholder_path_numeric E record p :
  shareholder_path E record = inr p -> numeric_record record.
Proof.
  intros Hp. apply numeric_record_relations.
  unfold shareholder_path, _calculate_path_confidence in Hp.
  destruct (relation_bonus_loop _ 0) as [e|b] eqn:Hloop; [done|].
  by eapply relation_bonus_loop_numeric.
Qed.

(** X7. [find_shareholders] never raises and sends one query. Its paths
    are built, in order, from the first records of the result set. When
    every record can be scored the paths are those of all the records, with
    nothing logged when the result set does not fail and its failure logged
    otherwise. When some record cannot be scored the paths are those of the
    records before the first such record, and its error is the one error
    logged. Nothing is logged only when the result set does not fail and
    every record can be scored. *)
Theorem find_shareholders_paths (E : Env) (company : string) (hops : Z) :
  exists ps evs,
    find_shareholders E company hops
    = (Ret ps, ERun (QShareholders company hops) :: evs) /\
    (length ps <= length (yielded (run_shareholders E company hops)))%nat /\
    Forall2 (fun record p => shareholder_path E record = inr p)
            (take (length ps) (yielded (run_shareholders E company hops))) ps /\
    (evs = [] \/ exists e, evs = [EError ShareholdersFailed e]) /\
    (evs = [] ->
       failure (run_shareholders E company hops) = None /\
       length ps = length (yielded (run_shareholders E company hops))) /\
    (Forall numeric_record (yielded (run_shareholders E company hops)) ->
       length ps = length (yielded (run_shareholders E company hops)) /\
       (failure (run_shareholders E company hops) = None -> evs = []) /\
       (forall e, failure (run_shareholders E company hops) = Some e ->
                  evs = [EError ShareholdersFailed e])) /\
    (~ Forall numeric_record (yielded (run_shareholders E company hops)) ->
       exists bad e,
         yielded (run_shareholders E company hops) !! length ps = Some bad /\
         ~ numeric_record bad /\
         shareholder_path E bad = inl e /\
         evs = [EError ShareholdersFailed e]).
Proof.
  unfold find_shareholders.
  destruct (shareholders_loop_spec E (yielded (run_shareholders E company hops)) [])
    as (ps & Hfst & Hall & Hsnd).
  destruct (shareholders_loop E _ []) as [ps' [e|]]; cbn [fst snd app] in *; subst ps'.
  - destruct Hsnd as (bad & Hbad & He).
    assert (~ numeric_record bad) as Hnot.
    { intros Hnum. destruct (proj1 (shareholder_path_defined E bad) Hnum) as [p Hp].
      congruence. }
    pose proof (lookup_lt_Some _ _ _ Hbad) as Hlt.
    step_stage. eexists _, _. split; [reflexivity|].
    split; [lia|]. split; [done|]. split; [right; by eexists|].
    split; [done|]. split.
    + intros Hnum. destruct Hnot.
      eapply (proj1 (Forall_lookup _ _) Hnum); exact Hbad.
    + intros _. by exists bad, e.
  - assert (Forall numeric_record (yielded (run_shareholders E company hops))) as Hnum.
    { rewrite Hsnd, firstn_all in Hall.
      apply Forall_forall. intros record Hrec.
      apply list_elem_of_lookup_1 in Hrec as (i & Hi).
      destruct (Forall2_lookup_l _ _ _ _ _ Hall Hi) as (p & _ & Hp).
      by eapply shareholder_path_numeric. }
    destruct (failure _) as [e|]; step_stage; eexists _, _;
      (split; [reflexivity|]); (split; [lia|]); (split; [done|]).
    + split; [right; by eexists|]. split; [done|]. split; [|done].
      intros _. split; [done|]. split; [done|]. by intros e' [= <-].
    + split; [by left|]. split; [done|]. split; [|done].
      intros _. by repeat split.
Qed.

Lemma shareholder_path_shape E record p :
  shareholder_path E record = inr p ->
  length (entities p) = length (rec_entities record) /\
  length (relations p) = length (rec_relations record) /\
  Forall (fun r => source r = VStr "" /\ target r = VStr "") (relations p) /\
  Forall (fun e => properties e = ∅) (entities p) /\
  reasoning p = _generate_reasoning E (entities p) (relations p).
Proof.
  unfold shareholder_path.
  destruct (_calculate_path_confidence _ _) as [e|c]; [done|].
  intros [= <-]. cbn [entities relations reasoning].
  rewrite !length_map. repeat split.
  - apply Forall_forall. intros r Hr. apply list_elem_of_In, in_map_iff in Hr.
    by destruct Hr as (row & <- & _).
  - apply Forall_forall. intros e Hr. apply list_elem_of_In, in_map_iff in Hr.
    by destruct Hr as (row & <- & _).
Qed.

(** X8. Every path [find_shareholders] returns mirrors a record of the
    result set: as many entities and relations as the record has rows, its
    confidence from the scorer and its reasoning from the renderer; the
    entities carry no properties and the ends of the relations are left
    empty. *)
Theorem find_shareholders_path_shape (E : Env) (company : string) (hops : Z)
    (ps : list QueryPath) (p : QueryPath)
    (Hrun : outcome (find_shareholders E company hops) = Ret ps) (Hin : In p ps) :
  exists record,
    In record (yielded (run_shareholders E company hops)) /\
    length (entities p) = length (rec_entities record) /\
    length (relations p) = length (rec_relations record) /\
    Forall (fun r => source r = VStr "" /\ target r = VStr "") (relations p) /\
    Forall (fun e => properties e = ∅) (entities p) /\
    _calculate_path_confidence (rec_hops record) (relations p) = inr (confidence p) /\
    reasoning p = _generate_reasoning E (entities p) (relations p).
Proof.
  destruct (find_shareholders_run E company hops) as (evs & Hfs & _).
  rewrite Hfs in Hrun. injection Hrun as <-.
  apply shareholders_loop_paths in Hin as [[]|(record & Hrec & Hpath)].
  exists record. split; [done|].
  destruct (shareholder_path_shape E record p Hpath) as (H1 & H2 & H3 & H4 & H5).
  repeat (split; [done|]). split; [|done].
  by apply (shareholder_path_confidence E).
Qed.

Lemma find_shareholders_path_shape_witness :
  exists ps p,
    outcome (find_shareholders sample_env "字节跳动" 3) = Ret ps /\ In p ps /\
    length (entities p) = 2%nat /\ length (relations p) = 1%nat /\
    Forall (fun r => source r = VStr "" /\ target r = VStr "") (relations p).
Proof.
  eexists _, _. split; [vm_compute; reflexivity|]. split; [by left|].
  destruct (find_shareholders_path_shape sample_env "字节跳动" 3 _ _ eq_refl
              (or_introl eq_refl))
    as (record & _ & _ & _ & H3 & _).
  split; [reflexivity|]. split; [reflexivity|]. exact H3.
Defined.

Lemma shareholders_loop_stops E good bad rest acc :
  Forall numeric_record good -> ~ numeric_record bad ->
  exists ps e,
    shareholders_loop E (good ++ bad :: rest) acc = (acc ++ ps, Some e) /\
    shareholder_path E bad = inl e /\
    Forall2 (fun record p => shareholder_path E record = inr p) good ps.
Proof.
  intros Hgood Hbad. revert acc.
  induction Hgood as [|record good Hrec _ IH]; intros acc.
  - destruct (proj2 (shareholder_path_defined E bad) Hbad) as [e He].
    exists [], e. cbn. rewrite He, app_nil_r. by repeat split.
  - destruct (proj1 (shareholder_path_defined E record) Hrec) as [p Hp].
    destruct (IH (acc ++ [p])) as (ps & e & Hloop & He & Hall).
    exists (p :: ps), e. cbn. rewrite Hp, Hloop, <- app_assoc.
    split; [done|]. split; [done|]. by constructor.
Qed.

(** X9. A record that cannot be scored, one with a percentage that is not
    a number, ends the loop of [find_shareholders]: the paths of the records
    before it are returned, the records after it are dropped, and the
    [TypeError] is the one error logged. *)
Theorem find_shareholders_stops_at_bad_record (E : Env) (company : string)
    (hops : Z) (good rest : list ShareholderRecord) (bad : ShareholderRecord)
    (Hyield : yielded (run_shareholders E company hops) = good ++ bad :: rest)
    (Hgood : Forall numeric_record good) (Hbad : ~ numeric_record bad) :
  exists ps e,
    find_shareholders E company hops
    = (Ret ps, [ERun (QShareholders company hops); EError ShareholdersFailed e]) /\
    Forall2 (fun record p => shareholder_path E record = inr p) good ps /\
    shareholder_path E bad = inl e.
Proof.
  unfold find_shareholders. rewrite Hyield.
  destruct (shareholders_loop_stops E good bad rest [] Hgood Hbad)
    as (ps & e & -> & He & Hall).
  exists ps, e. by repeat split.
Qed.

Lemma find_shareholders_stops_at_bad_record_witness :
  exists ps e,
    find_shareholders text_percentage_env "字节跳动" 3
    = (Ret ps, [ERun (QShareholders "字节跳动" 3); EError ShareholdersFailed e]) /\
    Forall2 (fun record p => shareholder_path text_percentage_env record = inr p)
            [holder_record "sh_003" "张一鸣" 20.2] ps /\
    shareholder_path text_percentage_env text_percentage_record = inl e.
Proof.
  apply (find_shareholders_stops_at_bad_record text_percentage_env "字节跳动" 3
           [holder_record "sh_003" "张一鸣" 20.2]
           [holder_record "sh_006" "红杉资本" 8.0] text_percentage_record).
  - reflexivity.
  - constructor; [|constructor]. constructor; [|constructor]. by exists 20.2.
  - intros H. apply Forall_inv in H. destruct H as [q Hq]. discriminate.
Defined.

(** ** find_controlling_shareholder *)

(** X10. [find_controlling_shareholder] never raises and sends one query.
    It logs nothing or one error, and with an error it returns no path; a
    result set without record gives no path and no error. *)
Theorem find_controlling_shareholder_absent (E : Env) (company : string) :
  exists r evs,
    find_controlling_shareholder E company
    = (Ret r, ERun (QControlling company) :: evs) /\
    (evs = [] \/ exists e, evs = [EError ControllingFailed e] /\ r = None) /\
    (failure (run_controlling E company) = None ->
     yielded (run_controlling E company) = [] ->
     r = None /\ evs = []).
Proof.
  unfold find_controlling_shareholder, single.
  destruct (failure _) as [e|]; [step_stage|].
  { eexists _, _. split; [reflexivity|]. split; [|done]. right. by eexists. }
  destruct (yielded _) as [|record rest]; cbn [head]; [step_stage|].
  { eexists _, _. split; [reflexivity|]. split; [by left|done]. }
  run_stage; eexists _, _; (split; [reflexivity|]); (split; [|done]);
    first [by left | right; by eexists].
Qed.

(** X11. A path returned by [find_controlling_shareholder] is built from
    the first record of the result set: one entity, the shareholder with its
    id, name, first label and all its properties, and one relation
    SHAREHOLDER from the shareholder's id to the company name queried, with
    the properties of the relationship; the confidence is 0.9 for a
    percentage above 50 and 0.7 otherwise. *)
Theorem find_controlling_shareholder_path (E : Env) (company : string)
    (p : QueryPath)
    (Hrun : outcome (find_controlling_shareholder E company) = Ret (Some p)) :
  exists record sid sname label q,
    failure (run_controlling E company) = None /\
    head (yielded (run_controlling E company)) = Some record /\
    node_props (rec_s record) !! "id" = Some sid /\
    node_props (rec_s record) !! "name" = Some sname /\
    head (node_labels (rec_s record)) = Some label /\
    py_get (rec_r record) "percentage" (VNum 0) = VNum q /\
    entities p = [mkEntity sid sname (VStr label) (node_props (rec_s record))] /\
    relations p = [mkRelation sid (VStr company) "SHAREHOLDER" (rec_r record)] /\
    confidence p = (if gt q 50 then 0.9 else 0.7) /\
    reasoning p
    = py_str E sname +:+ " 持有 " +:+ company +:+ " "
        +:+ py_str E (py_get (rec_r record) "percentage" (VStr "N/A")) +:+ "% 股份".
Proof.
  revert Hrun. unfold find_controlling_shareholder, single, node_item, first_item.
  destruct (failure _); [by step_stage|].
  destruct (head (yielded _)) as [record|]; [|by step_stage].
  step_stage.
  destruct (node_props (rec_s record) !! "id") as [sid|] eqn:Hid; [|by step_stage].
  destruct (node_props (rec_s record) !! "name") as [sname|] eqn:Hname;
    [|by step_stage].
  destruct (node_labels (rec_s record)) as [|label labels] eqn:Hlabels;
    [by step_stage|].
  destruct (py_get (rec_r record) "percentage" (VNum 0)) as [|q|s] eqn:Hq;
    [by step_stage| |by step_stage].
  step_stage. intros [= <-]. exists record, sid, sname, label, q.
  rewrite Hlabels. by repeat split.
Qed.

Lemma find_controlling_shareholder_path_witness :
  exists p record,
    outcome (find_controlling_shareholder sample_env "甲公司") = Ret (Some p) /\
    head (yielded (run_controlling sample_env "甲公司")) = Some record /\
    relations p
    = [mkRelation (VStr "sh_100") (VStr "甲公司") "SHAREHOLDER" (rec_r record)] /\
    confidence p = 0.9.
Proof.
  eexists _, _. split; [vm_compute; reflexivity|].
  destruct (find_controlling_shareholder_path sample_env "甲公司" _ eq_refl)
    as (record & sid & sname & label & q & _ & Hhead & Hid & _ & _ & Hq & _ & Hrel & Hc & _).
  injection Hhead as <-. injection Hid as <-. injection Hq as <-.
  split; [reflexivity|]. split; [exact Hrel|exact Hc].
Defined.

(** X12. A shareholder node that lacks the property [id] or [name], or
    that has no label, gives no path: the [KeyError] or [IndexError] is
    caught and logged, and [None] is returned. *)
Theorem find_controlling_shareholder_incomplete_node (E : Env) (company : string)
    (record : ControlRecord)
    (Hok : failure (run_controlling E company) = None)
    (Hhead : head (yielded (run_controlling E company)) = Some record) :
  (node_props (rec_s record) !! "id" = None ->
     find_controlling_shareholder E company
     = (Ret None, [ERun (QControlling company); EError ControllingFailed "'id'"])) /\
  (is_Some (node_props (rec_s record) !! "id") ->
   node_props (rec_s record) !! "name" = None ->
     find_controlling_shareholder E company
     = (Ret None, [ERun (QControlling company); EError ControllingFailed "'name'"])) /\
  (is_Some (node_props (rec_s record) !! "id") ->
   is_Some (node_props (rec_s record) !! "name") ->
   node_labels (rec_s record) = [] ->
     find_controlling_shareholder E company
     = (Ret None, [ERun (QControlling company);
                   EError ControllingFailed "list index out of range"])).
Proof.
  unfold find_controlling_shareholder, single, node_item, first_item.
  rewrite Hok, Hhead. step_stage. split; [|split].
  - by intros ->.
  - by intros [sid ->] ->.
  - by intros [sid ->] [sname ->] ->.
Qed.

Lemma find_controlling_shareholder_incomplete_node_witness :
  find_controlling_shareholder anonymous_holder_env "甲公司"
  = (Ret None, [ERun (QControlling "甲公司"); EError ControllingFailed "'id'"]).
Proof.
  refine (proj1 (find_controlling_shareholder_incomplete_node anonymous_holder_env
                   "甲公司" _ _ _) _); reflexivity.
Defined.

(** ** The branches of the graph stage *)

(** X13. Relationship branch, store without failure: when every node of
    every record has a label, the stage returns one path per record, in
    order, each with the entities and relations of its record, the ends of
    the relations empty and the confidence [max(0.1, 1.0 - hop_count * 0.2)];
    when some node has no label, the [IndexError] discards every path: the
    step holds no path, has confidence 0.0 and the error is logged. *)
Theorem relationship_branch (E : Env) (request : QueryRequest)
    (Ht : query_type request = Member RELATIONSHIP)
    (Hok : failure (run_multi_hop E "HOLDS" (max_hops request) (entity request)) = None) :
  let records := yielded (run_multi_hop E "HOLDS" (max_hops request) (entity request)) in
  (Forall labelled_record records ->
     exists ps,
       graph_query_paths E request
       = (Ret ps, [ERun (QMultiHop "HOLDS" (max_hops request) (entity request))]) /\
       Forall2 relationship_path_of records ps) /\
  (~ Forall labelled_record records ->
     _execute_graph_query E request
     = (Ret (mkReasoningStep 2 "图谱查询失败: list index out of range" "graph"
               (ResPaths []) 0.0),
        [ERun (QMultiHop "HOLDS" (max_hops request) (entity request));
         EError GraphQueryFailed "list index out of range"])).
Proof.
  cbv zeta. destruct (relationship_query_paths E request Ht Hok) as [Hall Hnot].
  split; [exact Hall|]. intros H.
  by apply (proj2 (execute_graph_query_of_paths E request)) in Hnot.
Qed.

Lemma relationship_branch_witness :
  exists ps,
    graph_query_paths (reachable_env [two_hop_record true])
      (sample_request (Member RELATIONSHIP) "字节跳动" 3)
    = (Ret ps, [ERun (QMultiHop "HOLDS" 3 "字节跳动")]) /\
    Forall2 relationship_path_of [two_hop_record true] ps.
Proof.
  refine (proj1 (relationship_branch (reachable_env [two_hop_record true])
                   (sample_request (Member RELATIONSHIP) "字节跳动" 3) _ _) _);
    [reflexivity..|].
  constructor; [|constructor]. by repeat constructor.
Defined.

(** One node without label among the records of the sample store: the
    stage keeps no path, not even that of the labelled record. *)
Example unlabelled_node_discards_all :
  _execute_graph_query (reachable_env [two_hop_record true; two_hop_record false])
    (sample_request (Member RELATIONSHIP) "字节跳动" 3)
  = (Ret (mkReasoningStep 2 "图谱查询失败: list index out of range" "graph"
            (ResPaths []) 0.0),
     [ERun (QMultiHop "HOLDS" 3 "字节跳动");
      EError GraphQueryFailed "list index out of range"]).
Proof. reflexivity. Qed.

(** X14. Entity-information branch, store without failure: without
    neighbour the stage returns no path, with step confidence 0.1; with
    neighbours it returns one path, of the entity queried followed by at
    most the first five neighbours, without relation and with confidence
    0.7, and the step has confidence 0.9. A neighbour without label is typed
    "Unknown". *)
Theorem entity_info_branch (E : Env) (request : QueryRequest)
    (Ht : query_type request = Member ENTITY_INFO)
    (Hok : failure (run_neighbors E (entity request)) = None) :
  let ns := yielded (run_neighbors E (entity request)) in
  exists s,
    _execute_graph_query E request = (Ret s, [ERun (QNeighbors (entity request))]) /\
    (ns = [] -> result s = ResPaths [] /\ step_confidence s = 0.1) /\
    (ns <> [] ->
       exists p,
         result s = ResPaths [p] /\ step_confidence s = 0.9 /\
         entities p
         = mkEntity (VStr (entity request)) (VStr (entity request)) (VStr "Entity") ∅
             :: map neighbor_entity (take 5 ns) /\
         length (entities p) = S (Nat.min 5 (length ns)) /\
         relations p = [] /\ confidence p = 0.7) /\
    (forall n, In n ns -> neighbor_labels n = [] ->
               type (neighbor_entity n) = VStr "Unknown").
Proof.
  cbv zeta. unfold _execute_graph_query, graph_query_paths.
  rewrite Ht. unfold get_entity_neighbors. rewrite Hok. step_stage.
  destruct (yielded _) as [|n ns] eqn:Hns; step_stage.
  - eexists. split; [reflexivity|]. split; [done|]. split; [done|]. by intros ? [].
  - eexists. split; [reflexivity|]. split; [done|]. split.
    + intros _. eexists. repeat split.
      cbn [entities length]. rewrite length_map, length_take. done.
    + intros n' _ Hl. unfold neighbor_entity. by rewrite Hl.
Qed.

Lemma entity_info_branch_witness :
  exists s p,
    _execute_graph_query (reachable_env [])
      (sample_request (Member ENTITY_INFO) "字节跳动" 3)
    = (Ret s, [ERun (QNeighbors "字节跳动")]) /\
    result s = ResPaths [p] /\ length (entities p) = 6%nat.
Proof.
  destruct (entity_info_branch (reachable_env [])
              (sample_request (Member ENTITY_INFO) "字节跳动" 3))
    as (s & Hs & _ & Hsome & _); [reflexivity..|].
  destruct Hsome as (p & Hp & _ & _ & Hlen & _); [discriminate|].
  exists s, p. split; [exact Hs|]. split; [exact Hp|exact Hlen].
Defined.

(** X15. The confidence of the graph step tells its outcome apart: 0.9
    with at least one path, 0.1 with no path and no exception, 0.0 with an
    exception, which is logged last and leaves the step without path. *)
Theorem execute_graph_query_confidence (E : Env) (request : QueryRequest) :
  exists s ps,
    outcome (_execute_graph_query E request) = Ret s /\
    result s = ResPaths ps /\
    ((ps <> [] /\ step_confidence s = 0.9 /\
      outcome (graph_query_paths E request) = Ret ps /\
      events (_execute_graph_query E request) = events (graph_query_paths E request)) \/
     (ps = [] /\ step_confidence s = 0.1 /\
      outcome (graph_query_paths E request) = Ret [] /\
      events (_execute_graph_query E request) = events (graph_query_paths E request)) \/
     (ps = [] /\ step_confidence s = 0.0 /\
      exists e,
        outcome (graph_query_paths E request) = Raise e /\
        description s = "图谱查询失败: " +:+ e /\
        events (_execute_graph_query E request)
        = events (graph_query_paths E request) ++ [EError GraphQueryFailed e])).
Proof.
  unfold _execute_graph_query.
  destruct (graph_query_paths E request) as [[ps|e] evs]; step_stage.
  - eexists _, ps. split; [reflexivity|]. split; [reflexivity|].
    rewrite app_nil_r. destruct ps; [right; left|left]; by repeat split.
  - eexists _, []. split; [reflexivity|]. split; [reflexivity|].
    right; right. repeat split. by exists e.
Qed.

(** ** The integration stage *)


Lemma existsb_false {A} (f : A -> bool) (l : list A) (y : A) :
  existsb f l = false -> In y l -> f y = false.
Proof.
  intros Hf Hy. destruct (f y) eqn:Hfy; [|done].
  rewrite <- Hf. symmetry. apply existsb_exists. by exists y.
Qed.

Lemma py_eqb_refl (v : PyVal) : py_eqb v v = true.
Proof.
  destruct v as [|q|s]; cbn; [done| |apply String.eqb_refl].
  by apply Qeq_bool_iff.
Qed.

Lemma py_eqb_sym (a b : PyVal) : py_eqb a b = py_eqb b a.
Proof.
  destruct a as [|p|s], b as [|q|s']; cbn; try done.
  - destruct (Qeq_bool p q) eqn:Hpq, (Qeq_bool q p) eqn:Hqp; try done.
    + apply Qeq_bool_iff in Hpq. symmetry in Hpq. apply Qeq_bool_iff in Hpq. congruence.
    + apply Qeq_bool_iff in Hqp. symmetry in Hqp. apply Qeq_bool_iff in Hqp. congruence.
  - apply String.eqb_sym.
Qed.

Section SetAddAll.

Context {A : Type} (eqb : A -> A -> bool).
Hypothesis eqb_refl : forall x, eqb x x = true.
Hypothesis eqb_sym : forall x y, eqb x y = eqb y x.

Lemma distinct_by_snoc (acc : list A) (x : A) :
  distinct_by eqb acc -> existsb (eqb x) acc = false -> distinct_by eqb (acc ++ [x]).
Proof.
  induction acc as [|a acc IH]; cbn.
  - done.
  - intros [Ha Hacc] Hx. apply orb_false_iff in Hx as [Hxa Hx]. split; [|by apply IH].
    rewrite existsb_app, Ha. cbn. by rewrite eqb_sym, Hxa.
Qed.

Lemma distinct_by_lookup (l : list A) :
  distinct_by eqb l ->
  forall i j x y, l !! i = Some x -> l !! j = Some y -> i <> j -> eqb x y = false.
Proof.
  induction l as [|a l IH]; [done|]. intros [Ha Hl] [|i] [|j] x y Hi Hj Hne; simplify_eq/=.
  - apply (existsb_false _ l); [done|]. apply list_elem_of_In. by eapply list_elem_of_lookup_2.
  - rewrite eqb_sym. apply (existsb_false _ l); [done|].
    apply list_elem_of_In. by eapply list_elem_of_lookup_2.
  - eapply IH; eauto.
Qed.

Lemma set_add_all_spec (xs acc : list A) :
  distinct_by eqb acc ->
  distinct_by eqb (set_add_all eqb xs acc) /\
  (forall a, In a acc -> In a (set_add_all eqb xs acc)) /\
  (forall y, In y (set_add_all eqb xs acc) -> In y xs \/ In y acc) /\
  (forall x, In x xs -> existsb (eqb x) (set_add_all eqb xs acc) = true).
Proof.
  revert acc. induction xs as [|x xs IH]; intros acc Hacc; cbn [set_add_all].
  - repeat split; [done|done|by right|by intros ? []].
  - destruct (existsb (eqb x) acc) eqn:Hx.
    + destruct (IH acc Hacc) as (Hd & Hkeep & Hfrom & Hcover).
      repeat split; [done|done| |].
      * intros y Hy. destruct (Hfrom y Hy); [left; by right|by right].
      * intros x' [<-|Hx']; [|by apply Hcover].
        apply existsb_exists in Hx as (a & Ha & Hxa).
        apply existsb_exists. exists a. split; [by apply Hkeep|done].
    + destruct (IH (acc ++ [x]) (distinct_by_snoc acc x Hacc Hx))
        as (Hd & Hkeep & Hfrom & Hcover).
      repeat split; [done| | |].
      * intros a Ha. apply Hkeep, in_or_app. by left.
      * intros y Hy. destruct (Hfrom y Hy) as [?|Hin]; [left; by right|].
        apply in_app_or in Hin as [?|[<-|[]]]; [by right|left; by left].
      * intros x' [<-|Hx']; [|by apply Hcover].
        apply existsb_exists. exists x. split; [|done].
        apply Hkeep, in_or_app. right. by left.
Qed.

End SetAddAll.

(** X18. The summary of the integration stage lists every entity name and
    every relation type of the paths once: the names are pairwise unequal,
    each name of an entity of a path equals a listed one and each listed
    one is such a name; the relation types are listed without repetition and
    are exactly those of the relations of the paths; and the paths of high
    confidence are those above 0.7. *)
Theorem integrate_summary (paths : list QueryPath) :
  let info := integrate paths in
  (forall i j x y, entities_involved info !! i = Some x ->
     entities_involved info !! j = Some y -> i <> j -> py_eqb x y = false) /\
  (forall p e, In p paths -> In e (entities p) ->
     existsb (py_eqb (name e)) (entities_involved info) = true) /\
  (forall v, In v (entities_involved info) ->
     exists p e, In p paths /\ In e (entities p) /\ name e = v) /\
  NoDup (relationship_types info) /\
  (forall t, In t (relationship_types info) <->
     exists p r, In p paths /\ In r (relations p) /\ relation_type r = t) /\
  (forall p, In p (high_confidence_paths info) <-> In p paths /\ 0.7 < confidence p).
Proof.
  cbn zeta. unfold integrate. cbn [entities_involved relationship_types high_confidence_paths].
  destruct (set_add_all_spec py_eqb py_eqb_refl py_eqb_sym
              (flat_map (fun p => map name (entities p)) paths) [] I)
    as (Hd & _ & Hfrom & Hcover).
  destruct (set_add_all_spec String.eqb String.eqb_refl String.eqb_sym
              (flat_map (fun p => map relation_type (relations p)) paths) [] I)
    as (Hd' & _ & Hfrom' & Hcover').
  split; [|split; [|split; [|split; [|split]]]].
  - by apply distinct_by_lookup; [apply py_eqb_sym|].
  - intros p e Hp He. apply Hcover, in_flat_map. exists p. split; [done|].
    by apply in_map.
  - intros v Hv. destruct (Hfrom v Hv) as [Hin|[]].
    apply in_flat_map in Hin as (p & Hp & Hin). apply in_map_iff in Hin as (e & <- & He).
    by exists p, e.
  - apply NoDup_alt. intros i j t Hi Hj. destruct (decide (i = j)) as [|Hne]; [done|].
    pose proof (distinct_by_lookup String.eqb String.eqb_sym _ Hd' i j t t Hi Hj Hne) as Hf.
    by rewrite String.eqb_refl in Hf.
  - intros t. split.
    + intros Ht. destruct (Hfrom' t Ht) as [Hin|[]].
      apply in_flat_map in Hin as (p & Hp & Hin).
      apply in_map_iff in Hin as (r & <- & Hr). by exists p, r.
    + intros (p & r & Hp & Hr & <-).
      assert (In (relation_type r)
                (flat_map (fun p => map relation_type (relations p)) paths)) as Hin.
      { apply in_flat_map. exists p. split; [done|]. by apply in_map. }
      apply Hcover', existsb_exists in Hin as (t & Ht & Heq).
      apply String.eqb_eq in Heq. by rewrite Heq.
  - intros p. rewrite filter_In. unfold gt.
    destruct (Qlt_le_dec 0.7 (confidence p)) as [Hlt|Hle]; split; try tauto.
    + intros [_ ?]. done.
    + intros [_ Hlt]. lra.
Qed.

(** ** The answer stage *)



(** X20. When the text of the completion is not JSON, or is JSON but not an
    object, the answer stage returns its failure answer: the answer
    "答案生成失败: <error>", confidence 0.0 and the explanation "系统错误",
    with the error of [json.loads], or the [AttributeError] of [.get],
    logged after the call. *)
Theorem final_answer_unreadable (E : Env) (request : QueryRequest)
    (steps : list ReasoningStep) (response : string)
    (Hchat : chat_create E (answer_prompt request steps) = inr response) :
  (forall e, json_loads E response = inl e ->
     _generate_final_answer E request steps
     = (Ret (mkFinalAnswer (JStr ("答案生成失败: " +:+ e)) 0.0 (JStr "系统错误")),
        [EChat (answer_prompt request steps); EError FinalAnswerFailed e])) /\
  (forall j, json_loads E response = inr j -> (forall items, j <> JObj items) ->
     let e := "'" +:+ json_type_name j +:+ "' object has no attribute 'get'" in
     _generate_final_answer E request steps
     = (Ret (mkFinalAnswer (JStr ("答案生成失败: " +:+ e)) 0.0 (JStr "系统错误")),
        [EChat (answer_prompt request steps); EError FinalAnswerFailed e])).
Proof.
  split.
  - intros e Hjson. unfold _generate_final_answer, _call_llm. rewrite Hchat.
    step_stage. by rewrite Hjson.
  - intros j Hjson Hobj. unfold _generate_final_answer, _call_llm. rewrite Hchat.
    step_stage. rewrite Hjson. by destruct j; [..|by destruct (Hobj items)].
Qed.

Lemma final_answer_unreadable_witness :
  _generate_final_answer plain_text_env
    (sample_request (Member SHAREHOLDER) "字节跳动" 3) []
  = (Ret (mkFinalAnswer
            (JStr "答案生成失败: Expecting value: line 1 column 1 (char 0)") 0.0
            (JStr "系统错误")),
     [EChat (answer_prompt (sample_request (Member SHAREHOLDER) "字节跳动" 3) []);
      EError FinalAnswerFailed "Expecting value: line 1 column 1 (char 0)"]).
Proof.
  destruct (final_answer_unreadable plain_text_env
              (sample_request (Member SHAREHOLDER) "字节跳动" 3) []
              "张一鸣是最大股东" eq_refl) as [H _].
  exact (H _ eq_refl).
Defined.

(** X21. The prompt of the answer stage in the pipeline: its context holds
    the descriptions of the three steps and, after that of the graph step,
    the first three paths at most, numbered from 1 in the order of the
    store; the paths the integration step carries are not listed again. *)
Theorem answer_prompt_of_pipeline (E : Env) (request : QueryRequest) :
  exists s1 s2 s3 ps,
    outcome (_identify_query_intent E request) = Ret s1 /\
    outcome (_execute_graph_query E request) = Ret s2 /\
    outcome (_integrate_and_reason request (result s2)) = Ret s3 /\
    result s2 = ResPaths ps /\
    answer_prompt request [s1; s2; s3]
    = AnswerPrompt (query request) (entity request) (value (query_type request))
        (StepLine 1 (description s1)
           :: StepLine 2 (description s2)
           :: imap (fun i p => PathLine (i + 1) (reasoning p) (confidence p))
                (take 3 ps)
           ++ [StepLine 3 (description s3)]) /\
    In (EChat (answer_prompt request [s1; s2; s3])) (events (process_query E request)).
Proof.
  destruct (identify_query_intent_step E request) as (s1 & H1 & I1 & D1).
  destruct (execute_graph_query_step E request) as (s2 & H2 & ps & I2 & D2 & R2).
  destruct (integrate_and_reason_step request (result s2)) as (s3 & H3 & I3 & D3).
  destruct (generate_final_answer_total E request [s1; s2; s3]) as (fa & H4).
  exists s1, s2, s3, ps. repeat (split; [done|]). split.
  - unfold answer_prompt, context_lines. cbn [flat_map].
    rewrite I1, I2, I3, D1, D2, D3, R2. cbn [String.eqb Ascii.eqb Bool.eqb result_paths app].
    reflexivity.
  - rewrite (process_query_run E request s1 s2 s3 fa H1 H2 H3 H4). cbn [events snd].
    right. apply in_or_app. right. apply in_or_app. right. apply in_or_app. right.
    apply in_or_app. left.
    unfold _generate_final_answer, _call_llm. run_stage; by left.
Qed.

(** ** The intent stage *)

(** X22. When the completion call fails and [json.loads] reads back the
    fallback of [_call_llm], the intent stage does not fail: it returns the
    step "意图识别: 未知" with confidence 0.8, and only the failure of the call
    is logged. *)
Theorem intent_step_on_outage (E : Env) (request : QueryRequest) (e : Exn)
    (Hchat : chat_create E (IntentPrompt (query request)) = inl e)
    (Hback : json_loads E (json_dumps E (llm_fallback e)) = inr (llm_fallback e)) :
  _identify_query_intent E request
  = (Ret (mkReasoningStep 1 "意图识别: 未知" "llm" (ResIntent (llm_fallback e)) 0.8),
     [EChat (IntentPrompt (query request)); EError LLMCallFailed e]).
Proof.
  unfold _identify_query_intent, _call_llm. rewrite Hchat. step_stage.
  by rewrite Hback.
Qed.

Lemma intent_step_on_outage_witness :
  _identify_query_intent outage_env (sample_request (Member SHAREHOLDER) "字节跳动" 3)
  = (Ret (mkReasoningStep 1 "意图识别: 未知" "llm"
            (ResIntent (llm_fallback "Connection error.")) 0.8),
     [EChat (IntentPrompt "最大股东是谁？"); EError LLMCallFailed "Connection error."]).
Proof.
  exact (intent_step_on_outage outage_env
           (sample_request (Member SHAREHOLDER) "字节跳动" 3) "Connection error."
           eq_refl eq_refl).
Defined.

(** X23. The intent stage on an answer of the completion: a JSON object
    gives the step "意图识别: <query_type>", "未知" without that key, with
    confidence 0.8 whatever the object says; a text that is not JSON, or
    JSON that is not an object, gives the failure step with confidence 0.0,
    an empty result and the error logged. The stage never raises. *)
Theorem intent_step_from_response (E : Env) (request : QueryRequest) (response : string)
    (Hchat : chat_create E (IntentPrompt (query request)) = inr response) :
  let failed e :=
    (Ret (mkReasoningStep 1 ("意图识别失败: " +:+ e) "llm" ResNothing 0.0),
     [EChat (IntentPrompt (query request)); EError IntentFailed e]) in
  _identify_query_intent E request
  = match json_loads E response with
    | inr (JObj items) =>
        (Ret (mkReasoningStep 1
                ("意图识别: " +:+ json_str E (default (JStr "未知") (assoc "query_type" items)))
                "llm" (ResIntent (JObj items)) 0.8),
         [EChat (IntentPrompt (query request))])
    | inr j => failed ("'" +:+ json_type_name j +:+ "' object has no attribute 'get'")
    | inl e => failed e
    end.
Proof.
  unfold _identify_query_intent, _call_llm. rewrite Hchat. step_stage.
  destruct (json_loads E response) as [e|j]; [done|]. by destruct j.
Qed.

Lemma intent_step_from_response_witness :
  _identify_query_intent sample_env (sample_request (Member SHAREHOLDER) "字节跳动" 3)
  = (Ret (mkReasoningStep 1
            "意图识别失败: Expecting value: line 1 column 1 (char 0)" "llm" ResNothing 0.0),
     [EChat (IntentPrompt "最大股东是谁？");
      EError IntentFailed "Expecting value: line 1 column 1 (char 0)"]).
Proof.
  exact (intent_step_from_response sample_env
           (sample_request (Member SHAREHOLDER) "字节跳动" 3) "这是一个股东查询" eq_refl).
Defined.

(** ** The calls of a request *)

Lemma without_errors_app (evs evs' : list Event) :
  without_errors (evs ++ evs') = without_errors evs ++ without_errors evs'.
Proof. apply List.filter_app. Qed.

Lemma without_errors_only_errors (evs : list Event) :
  (forall ev, In ev evs -> exists site e, ev = EError site e) ->
  without_errors evs = [].
Proof.
  induction evs as [|ev evs IH]; [done|]. intros Hall.
  destruct (Hall ev) as (site & e & ->); [by left|]. cbn.
  apply IH. intros ev Hin. apply Hall. by right.
Qed.

Lemma identify_query_intent_calls E request :
  without_errors (events (_identify_query_intent E request))
  = [EChat (IntentPrompt (query request))].
Proof. unfold _identify_query_intent, _call_llm. by run_stage. Qed.

Lemma generate_final_answer_calls E request steps :
  without_errors (events (_generate_final_answer E request steps))
  = [EChat (answer_prompt request steps)].
Proof. unfold _generate_final_answer, _call_llm. by run_stage. Qed.

Lemma graph_query_paths_calls E request :
  without_errors (events (graph_query_paths E request))
  = map ERun (store_queries request).
Proof.
  unfold graph_query_paths, store_queries.
  destruct (query_type request) as [[| | |]|v]; cbn [map].
  - destruct (find_shareholders_run E (entity request) (max_hops request))
      as (evs & -> & Hevs).
    cbn [events snd]. change (ERun ?q :: evs) with ([ERun q] ++ evs).
    rewrite without_errors_app, (without_errors_only_errors evs); [done|].
    intros ev Hin. destruct (Hevs ev Hin) as [e ->]. by eexists _, _.
  - unfold find_controlling_shareholder. run_stage.
    all: repeat (match goal with
                 | |- context [match ?x with Some _ => _ | None => _ end] => destruct x
                 end; run_stage).
    all: reflexivity.
  - unfold find_multi_hop_relationships.
    destruct (failure _) as [e|]; step_stage; [done|].
    pose proof (for_records_events relationship_path
                  (map multi_hop_result
                     (yielded (run_multi_hop E "HOLDS" (max_hops request) (entity request))))
                  relationship_path_events) as Hev.
    destruct (for_records relationship_path _) as [[ps|e] evs];
      cbn [events snd] in Hev; subst evs; reflexivity.
  - unfold get_entity_neighbors.
    destruct (failure _) as [e|]; step_stage; [done|].
    by destruct (yielded _).
  - done.
Qed.

Lemma execute_graph_query_calls E request :
  without_errors (events (_execute_graph_query E request))
  = map ERun (store_queries request).
Proof.
  unfold _execute_graph_query.
  pose proof (graph_query_paths_calls E request) as Hcalls.
  destruct (graph_query_paths E request) as [[ps|e] evs]; step_stage;
    cbn [events snd] in Hcalls; rewrite ?app_nil_r; [done|].
  rewrite without_errors_app, Hcalls. cbn. apply app_nil_r.
Qed.

(** X24. What a request costs: apart from the errors it logs,
    [process_query] logs its start, calls the completion service for the
    intent, sends the store the one query of the request's type, none for a
    type outside the four, calls the completion service for the answer and
    logs its end, in this order and whatever fails on the way. *)
Theorem process_query_calls (E : Env) (request : QueryRequest) :
  exists s1 s2 s3,
    outcome (_identify_query_intent E request) = Ret s1 /\
    outcome (_execute_graph_query E request) = Ret s2 /\
    outcome (_integrate_and_reason request (result s2)) = Ret s3 /\
    without_errors (events (process_query E request))
    = EInfoStart (query request)
        :: EChat (IntentPrompt (query request))
        :: map ERun (store_queries request)
        ++ [EChat (answer_prompt request [s1; s2; s3]); EInfoDone (elapsed E)] /\
    (length (store_queries request) <= 1)%nat.
Proof.
  destruct (process_query_stages E request)
    as (s1 & s2 & s3 & fa & ps & H1 & H2 & H3 & H4 & _).
  exists s1, s2, s3. repeat (split; [done|]). split.
  - rewrite (process_query_run E request s1 s2 s3 fa H1 H2 H3 H4). cbn [events snd].
    change (EInfoStart ?q :: ?l) with ([EInfoStart q] ++ l).
    rewrite !without_errors_app, identify_query_intent_calls,
      execute_graph_query_calls, integrate_and_reason_silent,
      generate_final_answer_calls.
    reflexivity.
  - unfold store_queries. destruct (query_type request) as [[| | |]|v]; cbn; lia.
Qed.

(** ** The batch *)

Lemma process_query_returns E request :
  exists r, outcome (process_query E request) = Ret r /\ well_formed request r.
Proof.
  destruct (process_query_stages E request)
    as (s1 & s2 & s3 & fa & ps & H1 & H2 & H3 & H4 & _).
  rewrite (process_query_run E request s1 s2 s3 fa H1 H2 H3 H4).
  eexists. split; [reflexivity|]. by repeat split.
Qed.

Lemma batch_loop_spec E requests acc :
  exists results,
    batch_loop E requests acc
    = (acc ++ results,
       flat_map (fun request => map Within (events (process_query E request))) requests) /\
    Forall2 (fun request r =>
               outcome (process_query E request) = Ret r /\ well_formed request r)
            requests results.
Proof.
  revert acc. induction requests as [|request rest IH]; intros acc.
  - exists []. by rewrite app_nil_r.
  - destruct (process_query_returns E request) as (r & Hr & Hwf).
    destruct (IH (acc ++ [r])) as (results & Hloop & Hall).
    exists (r :: results). cbn [batch_loop flat_map]. rewrite Hr, Hloop.
    rewrite <- app_assoc. split; [done|]. by constructor.
Qed.

(** X25. [batch_process_queries] returns one result per request, in the
    order of the requests: the result [process_query] returns for that
    request, well formed for it. Its [except] branch is never taken: the
    batch logs what the requests log and no error of its own, and no result
    is the substitute of a failed request. *)
Theorem batch_process_queries_results (E : Env) (requests : list QueryRequest) :
  exists results,
    batch_process_queries E requests
    = (results,
       flat_map (fun request => map Within (events (process_query E request))) requests) /\
    Forall2 (fun request r =>
               outcome (process_query E request) = Ret r /\ well_formed request r)
            requests results /\
    length results = length requests /\
    (forall e, ~ In (BatchFailed e) (snd (batch_process_queries E requests))) /\
    (forall request e, ~ In (batch_failed_result request e) results).
Proof.
  destruct (batch_loop_spec E requests []) as (results & Hloop & Hall).
  exists results. unfold batch_process_queries. rewrite Hloop. cbn [app snd].
  split; [done|]. split; [done|]. split; [symmetry; by eapply Forall2_length|]. split.
  - intros e Hin. apply in_flat_map in Hin as (request & _ & Hin).
    by apply in_map_iff in Hin as (ev & ? & _).
  - intros request e Hin. apply list_elem_of_In in Hin.
    apply list_elem_of_lookup_1 in Hin as (i & Hi).
    destruct (Forall2_lookup_r _ _ _ _ _ Hall Hi) as (request' & _ & Hr & _).
    destruct (process_query_stages E request')
      as (s1 & s2 & s3 & fa & ps & H1 & H2 & H3 & H4 & _).
    rewrite (process_query_run E request' s1 s2 s3 fa H1 H2 H3 H4) in Hr.
    cbn [outcome fst] in Hr. by injection Hr.
Qed.

(** ** Bounds of the statistics *)

Lemma get_query_statistics_full (results : list QueryResult) :
  results <> [] ->
  exists avg_confidence avg_execution_time rate,
    get_query_statistics results
    = inr (StatsFull
             (mkStatistics (Z.of_nat (length results)) (count_where successful results)
                rate avg_confidence avg_execution_time
                (to_rate <$> count_by_type results ∅))) /\
    rate == inject_Z (count_where successful results) / inject_Z (Z.of_nat (length results)) /\
    avg_confidence == mean (map res_confidence results) /\
    avg_execution_time == mean (map execution_time results).
Proof.
  intros Hne. destruct results as [|r rest]; [done|]. set (results := r :: rest) in *.
  assert (map res_confidence results <> []) as Hc by done.
  assert (map execution_time results <> []) as Ht by done.
  destruct (py_div_mean _ Hc) as (avg_c & Hdc & Havg_c).
  destruct (py_div_mean _ Ht) as (avg_t & Hdt & Havg_t).
  rewrite length_map in Hdc, Hdt.
  unfold get_query_statistics. fold results. cbv zeta.
  change (match results with [] => inr StatsEmpty | _ :: _ => ?x end) with x.
  rewrite Hdc, Hdt. unfold py_div at 1.
  destruct (Z.eqb_spec (Z.of_nat (length results)) 0) as [H0|_]; [simpl in H0; lia|].
  by eexists _, _, _.
Qed.

Lemma count_where_le_length f rs : (count_where f rs <= Z.of_nat (length rs))%Z.
Proof.
  induction rs as [|r rs IH]; [done|]. rewrite count_where_cons.
  cbn [length]. destruct (f r); lia.
Qed.

Lemma count_where_both_le f g rs :
  (count_where (fun r => f r && g r) rs <= count_where f rs)%Z.
Proof.
  induction rs as [|r rs IH]; [done|]. rewrite !count_where_cons.
  destruct (f r), (g r); cbn [andb]; lia.
Qed.

Lemma ratio_bounds (k n : Z) :
  (0 <= k <= n)%Z -> (0 < n)%Z ->
  0 <= inject_Z k / inject_Z n /\ inject_Z k / inject_Z n <= 1.
Proof.
  intros [Hk Hkn] Hn.
  assert (0 < inject_Z n) as Hpos by (change 0 with (inject_Z 0); by rewrite <- Zlt_Qlt).
  assert (0 <= inject_Z k) as Hk' by (change 0 with (inject_Z 0); by rewrite <- Zle_Qle).
  assert (inject_Z k <= inject_Z n) as Hkn' by (by rewrite <- Zle_Qle).
  split.
  - apply Qle_shift_div_l; [done|]. lra.
  - apply Qle_shift_div_r; [done|]. lra.
Qed.

(** X26. The statistics of a non-empty list are within their bounds: the
    number of successes is between 0 and the total, the success rate is
    between 0 and 1, and every query type listed has a count between 1 and
    the total and a success rate between 0 and 1. No division by zero is
    reached. *)
Theorem get_query_statistics_bounds (results : list QueryResult) (Hne : results <> []) :
  exists s,
    get_query_statistics results = inr (StatsFull s) /\
    (0 <= successful_queries s <= total_queries s)%Z /\
    (0 < total_queries s)%Z /\
    0 <= stat_success_rate s /\ stat_success_rate s <= 1 /\
    (forall key st, query_type_statistics s !! key = Some st ->
       (1 <= count st <= total_queries s)%Z /\
       0 <= success_rate st /\ success_rate st <= 1).
Proof.
  destruct (get_query_statistics_full results Hne)
    as (avg_c & avg_t & rate & -> & Hrate & Havg_c & _).
  eexists. split; [reflexivity|].
  cbn [total_queries successful_queries stat_success_rate average_confidence
         query_type_statistics].
  pose proof (count_where_nonneg successful results) as H0.
  pose proof (count_where_le_length successful results) as H1.
  assert (0 < Z.of_nat (length results))%Z as Hlen by (destruct results; [done|cbn; lia]).
  split; [done|]. split; [done|].
  destruct (ratio_bounds (count_where successful results) (Z.of_nat (length results)))
    as [Hr0 Hr1]; [done|done|].
  split; [by rewrite Hrate|]. split; [by rewrite Hrate|].
  - intros key st Hst.
    destruct (query_type_statistics_lookup results key) as [Hnone Hsome].
    cbv zeta in Hnone, Hsome.
    pose proof (count_where_nonneg (of_type key) results) as Hn0.
    destruct (decide (count_where (of_type key) results = 0%Z)) as [Hz|Hnz].
    { rewrite (Hnone Hz) in Hst. done. }
    destruct Hsome as (st' & Hst' & Hcount & Hsr); [lia|].
    rewrite Hst in Hst'. injection Hst' as <-.
    pose proof (count_where_le_length (of_type key) results).
    split; [lia|]. rewrite Hsr. apply ratio_bounds; [|lia]. split.
    + apply count_where_nonneg.
    + apply count_where_both_le.
Qed.

Lemma get_query_statistics_bounds_witness :
  exists s,
    get_query_statistics sample_results = inr (StatsFull s) /\
    (0 <= successful_queries s <= total_queries s)%Z /\
    (0 < total_queries s)%Z /\
    0 <= stat_success_rate s /\ stat_success_rate s <= 1 /\
    (forall key st, query_type_statistics s !! key = Some st ->
       (1 <= count st <= total_queries s)%Z /\
       0 <= success_rate st /\ success_rate st <= 1).
Proof.
  apply (get_query_statistics_bounds sample_results). done.
Defined.

(** ** The statistics of a batch *)

Lemma count_where_of_type_batch (key : string) (requests : list QueryRequest)
    (results : list QueryResult) :
  Forall2 (fun request r => res_query_type r = query_type request) requests results ->
  count_where (of_type key) results
  = Z.of_nat (length (List.filter (request_of_type key) requests)).
Proof.
  induction 1 as [|request r requests results Hr _ IH]; [done|].
  rewrite count_where_cons, IH. unfold of_type, request_of_type. cbn [List.filter].
  rewrite Hr. destruct (String.eqb _ key); cbn [length]; lia.
Qed.

(** X27. The statistics of the results of a non-empty batch count the
    requests: the total is the number of requests, and a query type is
    listed exactly when some request has it, with the number of these
    requests as its count. *)
Theorem batch_statistics (E : Env) (requests : list QueryRequest)
    (Hne : requests <> []) :
  exists s,
    get_query_statistics (fst (batch_process_queries E requests)) = inr (StatsFull s) /\
    total_queries s = Z.of_nat (length requests) /\
    forall key,
      let n := length (List.filter (request_of_type key) requests) in
      match query_type_statistics s !! key with
      | Some st => count st = Z.of_nat n /\ (0 < n)%nat
      | None => n = 0%nat
      end.
Proof.
  destruct (batch_loop_spec E requests []) as (results & Hloop & Hall).
  unfold batch_process_queries. rewrite Hloop. cbn [fst app].
  pose proof (Forall2_length _ _ _ Hall) as Hlen.
  assert (results <> []) as Hres by (destruct requests, results; done).
  destruct (get_query_statistics_full results Hres)
    as (avg_c & avg_t & rate & -> & _).
  eexists. split; [reflexivity|]. cbn [total_queries query_type_statistics].
  split; [by rewrite Hlen|]. intros key. cbv zeta.
  assert (count_where (of_type key) results
          = Z.of_nat (length (List.filter (request_of_type key) requests))) as Hcount.
  { apply count_where_of_type_batch. eapply Forall2_impl; [exact Hall|].
    intros request r [_ (_ & Htype & _)]. exact Htype. }
  destruct (query_type_statistics_lookup results key) as [Hnone Hsome].
  cbv zeta in Hnone, Hsome. rewrite Hcount in Hnone, Hsome.
  destruct (length (List.filter (request_of_type key) requests)) as [|n] eqn:Hn.
  - by rewrite Hnone.
  - destruct Hsome as (st & -> & Hc & _); [lia|]. split; [done|lia].
Qed.

Lemma batch_statistics_witness :
  exists s,
    get_query_statistics
      (fst (batch_process_queries sample_env
              [sample_request (Member SHAREHOLDER) "字节跳动" 3;
               sample_request (Member CONTROL_CHAIN) "甲公司" 3])) = inr (StatsFull s) /\
    total_queries s = 2%Z /\
    forall key,
      let n := length (List.filter (request_of_type key)
                         [sample_request (Member SHAREHOLDER) "字节跳动" 3;
                          sample_request (Member CONTROL_CHAIN) "甲公司" 3]) in
      match query_type_statistics s !! key with
      | Some st => count st = Z.of_nat n /\ (0 < n)%nat
      | None => n = 0%nat
      end.
Proof.
  apply (batch_statistics sample_env
           [sample_request (Member SHAREHOLDER) "字节跳动" 3;
            sample_request (Member CONTROL_CHAIN) "甲公司" 3]).
  done.
Defined.

(** ** Percentages the renderer leaves out *)

Lemma reasoning_parts_same_rendering E all_entities rs rs' i visited :
  Forall2 same_rendering rs rs' ->
  reasoning_parts E all_entities rs i visited
  = reasoning_parts E all_entities rs' i visited.
Proof.
  intros Hall. revert i. induction visited as [|entity rest IH]; intros i; [done|].
  cbn [reasoning_parts]. destruct (rs !! i) as [r|] eqn:Hi.
  - destruct (Forall2_lookup_l _ _ _ _ _ Hall Hi) as (r' & -> & Htype & Hperc).
    destruct (all_entities !! (i + 1)%nat); [|apply IH].
    rewrite IH, Htype. destruct Hperc as [->|[-> ->]]; reflexivity.
  - assert (rs' !! i = None) as ->; [|apply IH].
    apply lookup_ge_None. rewrite <- (Forall2_length _ _ _ Hall).
    by apply lookup_ge_None.
Qed.

(** X28. The reasoning string reads of a relation its type and its
    percentage only, and a percentage of 0, an empty one and a missing one
    are all left out: relations that agree on the type and on the percentage
    shown give the same string. *)
Theorem generate_reasoning_same_rendering (E : Env) (entities : list Entity)
    (rs rs' : list Relation) (Hall : Forall2 same_rendering rs rs') :
  _generate_reasoning E entities rs = _generate_reasoning E entities rs'.
Proof.
  unfold _generate_reasoning. destruct entities as [|entity rest]; [done|].
  destruct Hall as [|r r' rs rs' Hr Hall]; [done|].
  f_equal. apply reasoning_parts_same_rendering. by constructor.
Qed.

Lemma generate_reasoning_same_rendering_witness :
  _generate_reasoning sample_env
    [mkEntity (VStr "sh_001") (VStr "甲") (VStr "Person") ∅;
     mkEntity (VStr "comp_001") (VStr "乙") (VStr "Company") ∅]
    [mkRelation (VStr "") (VStr "") "SHAREHOLDER" {[ "percentage" := VNum 0 ]}]
  = _generate_reasoning sample_env
      [mkEntity (VStr "sh_001") (VStr "甲") (VStr "Person") ∅;
       mkEntity (VStr "comp_001") (VStr "乙") (VStr "Company") ∅]
      [mkRelation (VStr "") (VStr "") "SHAREHOLDER" ∅].
Proof.
  apply generate_reasoning_same_rendering.
  constructor; [|constructor]. split; [reflexivity|]. right. by vm_compute.
Defined.

(** ** Store failures the graph stage does not see *)

(** X29. For a shareholder or a control-chain request the graph stage never
    reports a failure: [find_shareholders] and
    [find_controlling_shareholder] catch every exception, so the step says
    how many paths were found, with confidence 0.9, or 0.1 for none, never
    0.0, and no error of the stage is logged. A store that cannot be reached
    shows as a query without result. *)
Theorem kg_branches_never_fail (E : Env) (request : QueryRequest)
    (Ht : query_type request = Member SHAREHOLDER \/
          query_type request = Member CONTROL_CHAIN) :
  exists s ps,
    outcome (_execute_graph_query E request) = Ret s /\
    s = mkReasoningStep 2
          ("图谱查询完成，找到 " +:+ pretty (length ps) +:+ " 条路径") "graph"
          (ResPaths ps) (match ps with [] => 0.1 | _ => 0.9 end) /\
    (forall e, ~ In (EError GraphQueryFailed e) (events (_execute_graph_query E request))).
Proof.
  unfold _execute_graph_query, graph_query_paths. destruct Ht as [->| ->].
  - destruct (find_shareholders_run E (entity request) (max_hops request))
      as (evs & -> & Hevs).
    step_stage. eexists _, _. split; [reflexivity|]. split; [reflexivity|].
    intros e [Hin|Hin]; [discriminate|]. rewrite app_nil_r in Hin.
    by destruct (Hevs _ Hin).
  - unfold find_controlling_shareholder. run_stage.
    all: repeat (match goal with
                 | |- context [match ?x with Some _ => _ | None => _ end] => destruct x
                 end; run_stage).
    all: match goal with |- context [ResPaths ?l] => eexists _, l end;
      (split; [reflexivity|]); (split; [reflexivity|]); no_such_event.
Qed.

Lemma kg_branches_never_fail_witness :
  exists s ps,
    outcome (_execute_graph_query store_down_env
               (sample_request (Member SHAREHOLDER) "字节跳动" 3)) = Ret s /\
    s = mkReasoningStep 2
          ("图谱查询完成，找到 " +:+ pretty (length ps) +:+ " 条路径") "graph"
          (ResPaths ps) (match ps with [] => 0.1 | _ => 0.9 end) /\
    (forall e, ~ In (EError GraphQueryFailed e)
                 (events (_execute_graph_query store_down_env
                            (sample_request (Member SHAREHOLDER) "字节跳动" 3)))).
Proof.
  apply (kg_branches_never_fail store_down_env
           (sample_request (Member SHAREHOLDER) "字节跳动" 3)).
  by left.
Defined.
